(** * rtc-mca: the MCA real-time-clock driver (drivers/rtc/rtc-mca.c)

    A shallow embedding of the driver's register codec, alarm handling,
    ioctl shim, interrupt handlers, power hooks, sysfs attributes, probe
    and remove, with the properties of the driver's specification and
    further properties of the code stated and proved over it. *)

From Stdlib Require Import ZArith Lia Bool.
From stdpp Require Import gmap strings list.

Local Open Scope Z_scope.

(** ** Machine integers

    C integers are carried as [Z]; every conversion to a fixed-width type
    is written out. *)

Definition to_u8 (z : Z) : Z := z mod 2 ^ 8.
Definition to_u16 (z : Z) : Z := z mod 2 ^ 16.
Definition to_uint (z : Z) : Z := z mod 2 ^ 32.
Definition to_int (z : Z) : Z := (z + 2 ^ 31) mod 2 ^ 32 - 2 ^ 31.
Definition to_s64 (z : Z) : Z := (z + 2 ^ 63) mod 2 ^ 64 - 2 ^ 63.

(** The width of [unsigned long]. The model is of an LP64 build (arm64),
    where it is 64; on a 32-bit build the same type holds 32 bits and
    cuts a [time64_t] stored in it. *)
Definition BITS_PER_LONG : Z := 64.
Definition to_ulong (z : Z) : Z := z mod 2 ^ BITS_PER_LONG.

Definition is_u8 (z : Z) : Prop := 0 <= z < 256.

(** ** Data model *)

(** [struct rtc_time] of <linux/rtc.h>: the host convention keeps the year
    relative to 1900 and the month zero-based. *)
Record rtc_time : Type := mk_rtc_time {
  tm_sec : Z;
  tm_min : Z;
  tm_hour : Z;
  tm_mday : Z;
  tm_mon : Z;
  tm_year : Z;
  tm_wday : Z;
  tm_yday : Z;
  tm_isdst : Z
}.

(** [struct rtc_wkalrm]: [enabled] and [pending] are [unsigned char]. *)
Record rtc_wkalrm : Type := mk_rtc_wkalrm {
  enabled : Z;
  pending : Z;
  time : rtc_time
}.

(** The constants of <linux/mfd/mca-common/registers.h>. The header is not
    part of the driver file, so the register addresses, control bits and
    field masks are an interface the development is parametric in. *)
Class mca_registers : Type := {
  MCA_IRQ_STATUS_0 : Z;
  MCA_RTC_ALARM : Z;
  MCA_RTC_CONTROL : Z;
  MCA_RTC_EN : Z;
  MCA_RTC_ALARM_EN : Z;
  MCA_RTC_1HZ_EN : Z;
  MCA_RTC_PERIODIC_EN : Z;
  MCA_RTC_IRQ_PIN_EN : Z;
  MCA_RTC_COUNT_YEAR_L : Z;
  MCA_RTC_ALARM_YEAR_L : Z;
  MCA_RTC_PREPARE_DATETIME : Z;
  MCA_RTC_PREPARE_ALARM : Z;
  MCA_RTC_PERIODIC_IRQ_FREQ : Z;
  MCA_RTC_IRQ_PIN : Z;
  MCA_RTC_YEAR_L_MASK : Z;
  MCA_RTC_YEAR_H_MASK : Z;
  MCA_RTC_MONTH_MASK : Z;
  MCA_RTC_DAY_MASK : Z;
  MCA_RTC_HOUR_MASK : Z;
  MCA_RTC_MIN_MASK : Z;
  MCA_RTC_SEC_MASK : Z
}.

(** Indices into a register block (the anonymous enum of the driver). *)
Definition DATA_YEAR_L : nat := 0.
Definition DATA_YEAR_H : nat := 1.
Definition DATA_MONTH : nat := 2.
Definition DATA_DAY : nat := 3.
Definition DATA_HOUR : nat := 4.
Definition DATA_MIN : nat := 5.
Definition DATA_SEC : nat := 6.

(** [data[i]] for a [u8] buffer held as a list. *)
Definition byte_at (data : list Z) (i : nat) : Z := default 0 (data !! i).

(** [data[i] &= v] and [data[i] |= v]: the operation is carried out on
    [int] and the result is stored back into a [u8]. *)
Definition and_assign (data : list Z) (i : nat) (v : Z) : list Z :=
  <[i := to_u8 (Z.land (byte_at data i) v)]> data.
Definition or_assign (data : list Z) (i : nat) (v : Z) : list Z :=
  <[i := to_u8 (Z.lor (byte_at data i) v)]> data.

Section Codec.
Context `{mca_registers}.

(** ** Register codec *)

Definition mca_data_to_tm (data : list Z) (tm : rtc_time) : rtc_time :=
  {| tm_year :=
       to_int (Z.lor
                 (Z.shiftl (Z.land (byte_at data DATA_YEAR_H) MCA_RTC_YEAR_H_MASK) 8)
                 (Z.land (byte_at data DATA_YEAR_L) MCA_RTC_YEAR_L_MASK)
               - 1900);
     tm_mon := to_int (Z.land (byte_at data DATA_MONTH) MCA_RTC_MONTH_MASK - 1);
     tm_mday := Z.land (byte_at data DATA_DAY) MCA_RTC_DAY_MASK;
     tm_hour := Z.land (byte_at data DATA_HOUR) MCA_RTC_HOUR_MASK;
     tm_min := Z.land (byte_at data DATA_MIN) MCA_RTC_MIN_MASK;
     tm_sec := Z.land (byte_at data DATA_SEC) MCA_RTC_SEC_MASK;
     tm_wday := tm_wday tm;
     tm_yday := tm_yday tm;
     tm_isdst := tm_isdst tm |}.

Definition mca_tm_to_data (tm : rtc_time) (data : list Z) : list Z :=
  let data := and_assign data DATA_YEAR_L (to_u8 (Z.lnot MCA_RTC_YEAR_L_MASK)) in
  let data := and_assign data DATA_YEAR_H (to_u8 (Z.lnot MCA_RTC_YEAR_H_MASK)) in
  let data := or_assign data DATA_YEAR_L
                (Z.land (to_int (tm_year tm + 1900)) MCA_RTC_YEAR_L_MASK) in
  let data := or_assign data DATA_YEAR_H
                (Z.land (Z.shiftr (to_int (tm_year tm + 1900)) 8)
                        MCA_RTC_YEAR_H_MASK) in
  let data := and_assign data DATA_MONTH (Z.lnot MCA_RTC_MONTH_MASK) in
  let data := or_assign data DATA_MONTH
                (Z.land (to_int (tm_mon tm + 1)) MCA_RTC_MONTH_MASK) in
  let data := and_assign data DATA_DAY (Z.lnot MCA_RTC_DAY_MASK) in
  let data := or_assign data DATA_DAY (Z.land (tm_mday tm) MCA_RTC_DAY_MASK) in
  let data := and_assign data DATA_HOUR (Z.lnot MCA_RTC_HOUR_MASK) in
  let data := or_assign data DATA_HOUR (Z.land (tm_hour tm) MCA_RTC_HOUR_MASK) in
  let data := and_assign data DATA_MIN (Z.lnot MCA_RTC_MIN_MASK) in
  let data := or_assign data DATA_MIN (Z.land (tm_min tm) MCA_RTC_MIN_MASK) in
  let data := and_assign data DATA_SEC (Z.lnot MCA_RTC_SEC_MASK) in
  or_assign data DATA_SEC (Z.land (tm_sec tm) MCA_RTC_SEC_MASK).

(** The mask and the new value of the field kept in byte [i] of a block. *)
Definition field_mask (i : nat) : Z :=
  match i with
  | 0%nat => MCA_RTC_YEAR_L_MASK
  | 1%nat => MCA_RTC_YEAR_H_MASK
  | 2%nat => MCA_RTC_MONTH_MASK
  | 3%nat => MCA_RTC_DAY_MASK
  | 4%nat => MCA_RTC_HOUR_MASK
  | 5%nat => MCA_RTC_MIN_MASK
  | 6%nat => MCA_RTC_SEC_MASK
  | _ => 0
  end.

Definition field_value (tm : rtc_time) (i : nat) : Z :=
  match i with
  | 0%nat => to_int (tm_year tm + 1900)
  | 1%nat => Z.shiftr (to_int (tm_year tm + 1900)) 8
  | 2%nat => to_int (tm_mon tm + 1)
  | 3%nat => tm_mday tm
  | 4%nat => tm_hour tm
  | 5%nat => tm_min tm
  | 6%nat => tm_sec tm
  | _ => 0
  end.

(** The masks cover the range of their fields: eight bits for each half
    of the year, four for the month (1-12), five for the day (1-31) and
    the hour (0-23), six for the minute and the second (0-59). *)
Definition masks_cover_fields : Prop :=
  Z.land MCA_RTC_YEAR_L_MASK 255 = 255 /\
  Z.land MCA_RTC_YEAR_H_MASK 255 = 255 /\
  Z.land MCA_RTC_MONTH_MASK 15 = 15 /\
  Z.land MCA_RTC_DAY_MASK 31 = 31 /\
  Z.land MCA_RTC_HOUR_MASK 31 = 31 /\
  Z.land MCA_RTC_MIN_MASK 63 = 63 /\
  Z.land MCA_RTC_SEC_MASK 63 = 63.

End Codec.

(** A calendar time the hardware can hold: the absolute year fits the
    sixteen-bit year field, month 1-12, day 1-31, hour 0-23, minute and
    second 0-59 (year and month in the host convention of [rtc_time]). *)
Definition in_hw_range (tm : rtc_time) : Prop :=
  0 <= tm_year tm + 1900 < 65536 /\
  1 <= tm_mon tm + 1 <= 12 /\
  1 <= tm_mday tm <= 31 /\
  0 <= tm_hour tm <= 23 /\
  0 <= tm_min tm <= 59 /\
  0 <= tm_sec tm <= 59.

(** The six calendar fields of [src] over the remaining fields of [dst]. *)
Definition with_calendar_of (src dst : rtc_time) : rtc_time :=
  {| tm_sec := tm_sec src; tm_min := tm_min src; tm_hour := tm_hour src;
     tm_mday := tm_mday src; tm_mon := tm_mon src; tm_year := tm_year src;
     tm_wday := tm_wday dst; tm_yday := tm_yday dst; tm_isdst := tm_isdst dst |}.

(** ** Calendar arithmetic of the RTC library *)

(** Modelled from the spec: the RTC library helpers the driver calls
    ([rtc_valid_tm], [rtc_tm_to_time64], [rtc_time64_to_tm] and the
    [mktime64] behind them) live outside the driver file. Sections 3, 4.1
    and 4.3 describe them: a decoded value is valid when the month is 1-12,
    the day lies within the days of the given month and the time of day is
    in range; a calendar time is converted to a linear timestamp (seconds
    since 1970-01-01 00:00:00) and back, rolling over day, month and year
    boundaries. The definitions follow the Gregorian day count of the
    kernel library, over unbounded integers. The spec says nothing of a
    timestamp below the epoch; there [rtc_time64_to_tm] follows the
    helper of the kernel, which asks for a timestamp that is not
    negative and does not check it. *)
Definition is_leap_year (year : Z) : bool :=
  ((year mod 4 =? 0) && negb (year mod 100 =? 0)) || (year mod 400 =? 0).

Definition rtc_days_in_month : list Z :=
  [31; 28; 31; 30; 31; 30; 31; 31; 30; 31; 30; 31].

Definition rtc_month_days (month year : Z) : Z :=
  default 0 (rtc_days_in_month !! Z.to_nat month)
  + (if is_leap_year year && (month =? 1) then 1 else 0).

Definition EINVAL : Z := 22.
Definition EFAULT : Z := 14.
Definition ENOIOCTLCMD : Z := 515.
Definition INT_MAX : Z := 2 ^ 31 - 1.

Definition rtc_valid_tm (tm : rtc_time) : Z :=
  if (tm_year tm <? 70)
     || (INT_MAX - 1900 <? tm_year tm)
     || negb ((0 <=? tm_mon tm) && (tm_mon tm <? 12))
     || (tm_mday tm <? 1)
     || (rtc_month_days (tm_mon tm) (tm_year tm + 1900) <? tm_mday tm)
     || negb ((0 <=? tm_hour tm) && (tm_hour tm <? 24))
     || negb ((0 <=? tm_min tm) && (tm_min tm <? 60))
     || negb ((0 <=? tm_sec tm) && (tm_sec tm <? 60))
  then - EINVAL
  else 0.

(** The kernel takes the six fields as [unsigned int]; they are unbounded
    integers here. For a valid date with a sixteen-bit year no value of
    the computation leaves the range of the kernel's types. *)
Definition mktime64 (year0 mon0 day hour min sec : Z) : Z :=
  let '(mon, year) :=
    if mon0 - 2 <=? 0 then (mon0 - 2 + 12, year0 - 1) else (mon0 - 2, year0) in
  (((year / 4 - year / 100 + year / 400 + 367 * mon / 12 + day
     + year * 365 - 719499) * 24 + hour) * 60 + min) * 60 + sec.

Definition rtc_tm_to_time64 (tm : rtc_time) : Z :=
  mktime64 (tm_year tm + 1900) (tm_mon tm + 1) (tm_mday tm)
           (tm_hour tm) (tm_min tm) (tm_sec tm).

Definition LEAPS_THRU_END_OF (y : Z) : Z := y / 4 - y / 100 + y / 400.

(** Days from 1970-01-01 to the first day of [year]. *)
Definition days_before_year (year : Z) : Z :=
  (year - 1970) * 365 + LEAPS_THRU_END_OF (year - 1) - LEAPS_THRU_END_OF (1970 - 1).

(** [while (days < 0) { year -= 1; days += 365 + is_leap_year(year); }];
    the counter bounds the walk down from the estimate. *)
Fixpoint year_of_days (fuel : nat) (year days : Z) : Z * Z :=
  match fuel with
  | O => (year, days)
  | S fuel' =>
      if days <? 0
      then year_of_days fuel' (year - 1)
             (days + 365 + (if is_leap_year (year - 1) then 1 else 0))
      else (year, days)
  end.

(** [for (month = 0; month < 11; month++)] with its early [break]. *)
Fixpoint month_of_days (n : nat) (month year days : Z) : Z * Z :=
  match n with
  | O => (month, days)
  | S n' =>
      let newdays := days - rtc_month_days month year in
      if newdays <? 0 then (month, days)
      else month_of_days n' (month + 1) year newdays
  end.

(** [days = div_s64_rem(time, 86400, &secs)] with [unsigned int secs]: the
    division rounds towards zero and the remainder is kept in an
    [unsigned int]. From the epoch on that is the day and the second of
    the day. The second before the epoch has day 0 and a remainder of -1,
    which the [unsigned int] holds as [2 ^ 32 - 1]: it converts to
    1970-01-01 with hour 1193046, minute 28 and second 15. *)
Definition rtc_time64_to_tm (time : Z) : rtc_time :=
  let days := Z.quot time 86400 in
  let secs := to_uint (Z.rem time 86400) in
  let year0 := 1970 + Z.quot days 365 in
  let '(year, yday) :=
    year_of_days (Z.to_nat (Z.abs (year0 - 1970) + 1)) year0
      (days - days_before_year year0) in
  let '(month, mday) := month_of_days 11 0 year yday in
  let hour := secs / 3600 in
  let secs := secs - hour * 3600 in
  let min := secs / 60 in
  {| tm_sec := secs - min * 60;
     tm_min := min;
     tm_hour := hour;
     tm_mday := mday + 1;
     tm_mon := month;
     tm_year := year - 1900;
     tm_wday := Z.rem (days + 4) 7;
     tm_yday := yday + 1;
     tm_isdst := 0 |}.

(** The leap day of a year, the days of a year before a month, and the
    day number of a date counted from 1970-01-01: the quantities the two
    conversions are compared through. *)
Definition leap_day (year : Z) : Z := if is_leap_year year then 1 else 0.

Definition days_before_month (month year : Z) : Z :=
  default 0 ([0; 31; 59; 90; 120; 151; 181; 212; 243; 273; 304; 334] !! Z.to_nat month)
  + (if is_leap_year year && (2 <=? month) then 1 else 0).

Definition day_number (tm : rtc_time) : Z :=
  days_before_year (tm_year tm + 1900)
  + days_before_month (tm_mon tm) (tm_year tm + 1900) + tm_mday tm - 1.

(** The calendar part of [rtc_valid_tm], as a proposition. *)
Definition calendar_ok (tm : rtc_time) : Prop :=
  1970 <= tm_year tm + 1900 /\
  0 <= tm_mon tm <= 11 /\
  1 <= tm_mday tm <= rtc_month_days (tm_mon tm) (tm_year tm + 1900) /\
  0 <= tm_hour tm < 24 /\
  0 <= tm_min tm < 60 /\
  0 <= tm_sec tm < 60.

(** ** Alarm time adjustment *)

(** The alarm fires one second after the programmed value; the value is
    decremented on the way to the hardware and incremented on the way
    back. The timestamp is held in an [unsigned long]. *)
Definition mca_rtc_adjust_alarm_time (alrm : rtc_wkalrm) (inc : bool) : rtc_wkalrm :=
  let time_ := to_ulong (rtc_tm_to_time64 (time alrm)) in
  let time_ := if inc then to_ulong (time_ + 1) else to_ulong (time_ - 1) in
  {| enabled := enabled alrm;
     pending := pending alrm;
     time := rtc_time64_to_tm (to_s64 time_) |}.

(** ** Register transport *)

(** Modelled from the spec: the regmap transport is an external
    collaborator (section 6): [read], [bulk_read], [write], [bulk_write]
    and [update_bits], all synchronous, each of which may fail with a
    transport error. The model is a register file together with a script
    giving the outcome of each coming transaction ([Some e]: the
    transaction fails with [-e] and leaves the registers alone; [None], or
    an exhausted script: it succeeds) and a log of the transactions
    issued, in order. *)
Inductive xfer : Type :=
| XRead (reg : Z)
| XWrite (reg val : Z)
| XBulkRead (reg : Z) (len : nat)
| XBulkWrite (reg : Z) (bytes : list Z)
| XUpdateBits (reg mask val : Z).

Record regmap : Type := mk_regmap {
  regs : gmap Z Z;
  script : list (option positive);
  xlog : list xfer
}.

Definition reg_val (r : gmap Z Z) (reg : Z) : Z := default 0 (r !! reg).

Fixpoint store_bytes (reg : Z) (bytes : list Z) (r : gmap Z Z) : gmap Z Z :=
  match bytes with
  | [] => r
  | b :: bs => store_bytes (reg + 1) bs (<[reg := b]> r)
  end.

Definition load_bytes (reg : Z) (len : nat) (r : gmap Z Z) : list Z :=
  (fun k : nat => reg_val r (reg + Z.of_nat k)) <$> seq 0 len.

(** The outcome the script holds for the next transaction. *)
Definition next_outcome (map : regmap) : option positive :=
  default None (head (script map)).

(** Issue a transaction: log it and take its outcome from the script. *)
Definition xfer_begin (x : xfer) (map : regmap) : option positive * regmap :=
  (next_outcome map,
   {| regs := regs map; script := tail (script map); xlog := xlog map ++ [x] |}).

Definition set_regs (r : gmap Z Z) (map : regmap) : regmap :=
  {| regs := r; script := script map; xlog := xlog map |}.

(** [regmap_read(map, reg, &val)]: [val] keeps its value on failure. *)
Definition regmap_read (reg val : Z) (map : regmap) : Z * Z * regmap :=
  let '(o, map) := xfer_begin (XRead reg) map in
  match o with
  | Some e => (Z.neg e, val, map)
  | None => (0, reg_val (regs map) reg, map)
  end.

Definition regmap_write (reg val : Z) (map : regmap) : Z * regmap :=
  let '(o, map) := xfer_begin (XWrite reg val) map in
  match o with
  | Some e => (Z.neg e, map)
  | None => (0, set_regs (<[reg := val]> (regs map)) map)
  end.

(** [regmap_bulk_read(map, reg, buf, len)]: the first [len] bytes of
    [buf] are overwritten on success. *)
Definition regmap_bulk_read (reg : Z) (buf : list Z) (len : nat) (map : regmap)
  : Z * list Z * regmap :=
  let '(o, map) := xfer_begin (XBulkRead reg len) map in
  match o with
  | Some e => (Z.neg e, buf, map)
  | None => (0, load_bytes reg len (regs map) ++ drop len buf, map)
  end.

Definition regmap_bulk_write (reg : Z) (bytes : list Z) (map : regmap) : Z * regmap :=
  let '(o, map) := xfer_begin (XBulkWrite reg bytes) map in
  match o with
  | Some e => (Z.neg e, map)
  | None => (0, set_regs (store_bytes reg bytes (regs map)) map)
  end.

(** [tmp = orig & ~mask; tmp |= val & mask] *)
Definition merge_bits (orig mask val : Z) : Z :=
  Z.lor (Z.land orig (Z.lnot mask)) (Z.land val mask).

(** [regmap_update_bits(map, reg, mask, val)]: one read-modify-write
    transaction; the register is written only when its value changes. *)
Definition regmap_update_bits (reg mask val : Z) (map : regmap) : Z * regmap :=
  let '(o, map) := xfer_begin (XUpdateBits reg mask val) map in
  match o with
  | Some e => (Z.neg e, map)
  | None =>
      let orig := reg_val (regs map) reg in
      let tmp := merge_bits orig mask val in
      (0, if tmp =? orig then map else set_regs (<[reg := tmp]> (regs map)) map)
  end.

(** The return code of a transaction with a given outcome, and the
    register file a successful [regmap_update_bits] leaves. *)
Definition errno_of (o : option positive) : Z :=
  match o with
  | Some e => Z.neg e
  | None => 0
  end.

Definition regs_after_update (reg mask val : Z) (r : gmap Z Z) : gmap Z Z :=
  let tmp := merge_bits (reg_val r reg) mask val in
  if tmp =? reg_val r reg then r else <[reg := tmp]> r.

(** ** Driver state *)

(** [struct mca_rtc]; the [rtc_dev] and [mca] pointers are the framework
    and the transport of the [world] below. *)
Record mca_rtc : Type := mk_mca_rtc {
  irq_alarm : Z;
  irq_1HZ : Z;
  irq_periodic : Z;
  alarm_enabled : bool;
  prepare_enabled : bool
}.

(** A call into the RTC framework from an interrupt handler. *)
Inductive rtc_notify : Type :=
| RtcUpdateIrq (num events : Z)
| RtcHandleLegacyIrq (num mode : Z).

(** A kernel log line: the format string and its arguments. *)
Inductive printk : Type :=
| DevErr (fmt : string) (args : list Z)
| DevWarn (fmt : string) (args : list Z).

(** What the driver acts on: its private state, the regmap of the parent
    MCA device, the wake-up setting of the platform device, the kernel
    log, the notifications handed to the RTC framework and the user
    memory [put_user] writes to. *)
Record world : Type := mk_world {
  rtc : mca_rtc;
  bus : regmap;
  may_wakeup : bool;
  dmesg : list printk;
  notified : list rtc_notify;
  umem : gmap Z Z
}.

(** A state monad over [world]. *)
Definition M (A : Type) : Type := world -> A * world.

Definition ret {A : Type} (a : A) : M A := fun w => (a, w).
Definition bind {A B : Type} (m : M A) (k : A -> M B) : M B :=
  fun w => let '(a, w') := m w in k a w'.

Declare Scope drv_scope.
Delimit Scope drv_scope with drv.
Notation "x <- m ;; k" := (bind m (fun x => k))
  (at level 100, m at next level, right associativity) : drv_scope.
Notation "m ;; k" := (bind m (fun _ => k))
  (at level 100, right associativity) : drv_scope.
Local Open Scope drv_scope.

Definition get_rtc : M mca_rtc := fun w => (rtc w, w).

Definition set_alarm_enabled (b : bool) : M unit := fun w =>
  (tt, {| rtc := {| irq_alarm := irq_alarm (rtc w);
                    irq_1HZ := irq_1HZ (rtc w);
                    irq_periodic := irq_periodic (rtc w);
                    alarm_enabled := b;
                    prepare_enabled := prepare_enabled (rtc w) |};
          bus := bus w; may_wakeup := may_wakeup w; dmesg := dmesg w;
          notified := notified w; umem := umem w |}).

(** Run a transport operation on the regmap of the device. *)
Definition on_bus {A : Type} (op : regmap -> A * regmap) : M A := fun w =>
  let '(a, b) := op (bus w) in
  (a, {| rtc := rtc w; bus := b; may_wakeup := may_wakeup w; dmesg := dmesg w;
         notified := notified w; umem := umem w |}).

Definition log_line (l : printk) : M unit := fun w =>
  (tt, {| rtc := rtc w; bus := bus w; may_wakeup := may_wakeup w;
          dmesg := dmesg w ++ [l]; notified := notified w; umem := umem w |}).
Definition dev_err (fmt : string) (args : list Z) : M unit := log_line (DevErr fmt args).
Definition dev_warn (fmt : string) (args : list Z) : M unit := log_line (DevWarn fmt args).

Definition device_may_wakeup : M bool := fun w => (may_wakeup w, w).

Definition notify (n : rtc_notify) : M unit := fun w =>
  (tt, {| rtc := rtc w; bus := bus w; may_wakeup := may_wakeup w; dmesg := dmesg w;
          notified := notified w ++ [n]; umem := umem w |}).
(** [rtc_update_irq] and [rtc_handle_legacy_irq] return [void]. *)
Definition rtc_update_irq (num events : Z) : M unit := notify (RtcUpdateIrq num events).
Definition rtc_handle_legacy_irq (num mode : Z) : M unit :=
  notify (RtcHandleLegacyIrq num mode).

(** [put_user(x, ptr)]; its status is not looked at by the driver. *)
Definition put_user (x ptr : Z) : M unit := fun w =>
  (tt, {| rtc := rtc w; bus := bus w; may_wakeup := may_wakeup w; dmesg := dmesg w;
          notified := notified w; umem := <[ptr := x]> (umem w) |}).

(** ** Constants of <linux/rtc.h>, <linux/interrupt.h> and the ioctl encoding *)

Definition _IOC (dir type nr size : Z) : Z :=
  Z.lor (Z.lor (Z.lor (Z.shiftl dir 30) (Z.shiftl type 8)) nr) (Z.shiftl size 16).
Definition _IO (type nr : Z) : Z := _IOC 0 type nr 0.
Definition _IOW (type nr size : Z) : Z := _IOC 1 type nr size.
Definition _IOR (type nr size : Z) : Z := _IOC 2 type nr size.
Definition sizeof_long : Z := BITS_PER_LONG / 8.

Definition RTC_UIE_ON : Z := _IO 112 3.
Definition RTC_UIE_OFF : Z := _IO 112 4.
Definition RTC_PIE_ON : Z := _IO 112 5.
Definition RTC_PIE_OFF : Z := _IO 112 6.
Definition RTC_IRQP_READ : Z := _IOR 112 11 sizeof_long.
Definition RTC_IRQP_SET : Z := _IOW 112 12 sizeof_long.

Definition RTC_IRQF : Z := 128.
Definition RTC_PF : Z := 64.
Definition RTC_AF : Z := 32.
Definition RTC_UF : Z := 16.

Definition IRQ_HANDLED : Z := 1.

Definition RTC_IOCTL_DIGI : Z := 256.
Definition RTC_MCA_UIE_ON : Z := RTC_IOCTL_DIGI + RTC_UIE_ON.
Definition RTC_MCA_UIE_OFF : Z := RTC_IOCTL_DIGI + RTC_UIE_OFF.
Definition RTC_MCA_PIE_ON : Z := RTC_IOCTL_DIGI + RTC_PIE_ON.
Definition RTC_MCA_PIE_OFF : Z := RTC_IOCTL_DIGI + RTC_PIE_OFF.
Definition RTC_MCA_IRQP_READ : Z := RTC_IOCTL_DIGI + RTC_IRQP_READ.
Definition RTC_MCA_IRQP_SET : Z := RTC_IOCTL_DIGI + RTC_IRQP_SET.

Definition MCA_RTC_ACQUIRE_IDLE : Z := 0.
Definition MCA_RTC_ACQUIRE_REQUESTED : Z := 1.
Definition MCA_RTC_ACQUIRE_READY : Z := 2.

(** What an ioctl call comes to: a return value, or the integer division
    by zero that C leaves undefined (a divide trap). *)
Inductive ioctl_result : Type :=
| IoctlReturn (code : Z)
| IoctlDivideByZero.

(** [a / b] on C integers: no value when [b] is zero. *)
Definition c_div (a b : Z) : option Z :=
  if b =? 0 then None else Some (Z.quot a b).

(** A little-endian [unsigned short] as the two bytes of a bulk transfer. *)
Definition u16_bytes (v : Z) : list Z := [v mod 256; (v / 256) mod 256].
Definition u16_of_bytes (b : list Z) : Z := byte_at b 0 + 256 * byte_at b 1.

Section Driver.
Context `{mca_registers}.

(** Modelled from the spec: the header's addresses of the last register of
    each block are not in the driver file; section 3 gives a register
    block as seven consecutive bytes (year-low, year-high, month, day,
    hour, minute, second), so the second sits six registers after the
    low byte of the year. *)
Definition MCA_RTC_COUNT_SEC : Z := MCA_RTC_COUNT_YEAR_L + 6.
Definition MCA_RTC_ALARM_SEC : Z := MCA_RTC_ALARM_YEAR_L + 6.

Definition CLOCK_DATA_LEN : nat :=
  Z.to_nat (MCA_RTC_COUNT_SEC - MCA_RTC_COUNT_YEAR_L + 1).
Definition ALARM_DATA_LEN : nat :=
  Z.to_nat (MCA_RTC_ALARM_SEC - MCA_RTC_ALARM_YEAR_L + 1).

(** [u8 data[CLOCK_DATA_LEN] = { [0 ... (CLOCK_DATA_LEN - 1)] = 0 }] *)
Definition zeroed_data : list Z := replicate CLOCK_DATA_LEN 0.

(** ** Alarm enable bit *)

Definition mca_rtc_stop_alarm : M Z :=
  on_bus (regmap_update_bits MCA_RTC_CONTROL MCA_RTC_ALARM_EN 0).

Definition mca_rtc_start_alarm : M Z :=
  on_bus (regmap_update_bits MCA_RTC_CONTROL MCA_RTC_ALARM_EN MCA_RTC_ALARM_EN).

(** ** Ioctl shim *)

(** A [switch] over the six commands. The local [value_short] is not
    initialised in the source; the two bytes of the bulk read replace it
    before it is used. [arg] doubles as the user pointer [uarg]. *)
Definition mca_rtc_ioctl (cmd arg : Z) : M ioctl_result :=
  if (cmd =? RTC_MCA_UIE_ON) || (cmd =? RTC_MCA_UIE_OFF) then
    let enable := cmd =? RTC_MCA_UIE_ON in
    r <- on_bus (regmap_update_bits MCA_RTC_CONTROL MCA_RTC_1HZ_EN
                   (if enable then MCA_RTC_1HZ_EN else 0)) ;;
    if negb (r =? 0) then
      dev_err "Cannot update MCA_RTC_CONTROL register (%d)\n" [r] ;;
      ret (IoctlReturn (- EFAULT))
    else ret (IoctlReturn 0)
  else if (cmd =? RTC_MCA_PIE_ON) || (cmd =? RTC_MCA_PIE_OFF) then
    let enable := cmd =? RTC_MCA_PIE_ON in
    r <- on_bus (regmap_update_bits MCA_RTC_CONTROL MCA_RTC_PERIODIC_EN
                   (if enable then MCA_RTC_PERIODIC_EN else 0)) ;;
    if negb (r =? 0) then
      dev_err "Cannot update MCA_RTC_CONTROL register (%d)\n" [r] ;;
      ret (IoctlReturn (- EFAULT))
    else ret (IoctlReturn 0)
  else if cmd =? RTC_MCA_IRQP_READ then
    rd <- on_bus (regmap_bulk_read MCA_RTC_PERIODIC_IRQ_FREQ [0; 0] 2) ;;
    let '(r, buf) := rd in
    if r <? 0 then
      dev_err "Failed to get RTC periodic irq freq: %d\n" [r] ;;
      ret (IoctlReturn (- EFAULT))
    else
      let value_short := u16_of_bytes buf in
      match c_div 1024 value_short with
      | None => ret IoctlDivideByZero
      | Some value_long =>
          put_user (to_ulong value_long) arg ;;
          ret (IoctlReturn 0)
      end
  else if cmd =? RTC_MCA_IRQP_SET then
    let value_long := arg in
    match c_div 1024 value_long with
    | None => ret IoctlDivideByZero
    | Some q =>
        let value_short := to_u16 q in
        r <- on_bus (regmap_bulk_write MCA_RTC_PERIODIC_IRQ_FREQ
                       (u16_bytes value_short)) ;;
        if r <? 0 then
          dev_err "Failed to set RTC periodic irq freq: %d\n" [r] ;;
          ret (IoctlReturn (- EFAULT))
        else ret (IoctlReturn 0)
    end
  else ret (IoctlReturn (- ENOIOCTLCMD)).

(** ** Clock *)

Definition mca_rtc_read_time (tm : rtc_time) : M (Z * rtc_time) :=
  let data := zeroed_data in
  let rtc_adquire_datetime := MCA_RTC_ACQUIRE_REQUESTED in
  drv <- get_rtc ;;
  (if prepare_enabled drv then
     r <- on_bus (regmap_write MCA_RTC_PREPARE_DATETIME rtc_adquire_datetime) ;;
     if negb (r =? 0) then dev_warn "failed to write PREPARE_DATETIME (%d)\n" [r]
     else ret tt
   else ret tt) ;;
  rd <- on_bus (regmap_bulk_read MCA_RTC_COUNT_YEAR_L data CLOCK_DATA_LEN) ;;
  let '(r, data) := rd in
  if r <? 0 then
    dev_err "Failed to read RTC time data: %d\n" [r] ;;
    ret (r, tm)
  else
    let tm := mca_data_to_tm data tm in
    ret (rtc_valid_tm tm, tm).

Definition mca_rtc_set_time (tm : rtc_time) : M Z :=
  let data := zeroed_data in
  let data := mca_tm_to_data tm data in
  r <- on_bus (regmap_bulk_write MCA_RTC_COUNT_YEAR_L (take CLOCK_DATA_LEN data)) ;;
  if r <? 0 then
    dev_err "Failed to set RTC time data: %d\n" [r] ;;
    ret r
  else ret r.

(** ** Alarm *)

Definition with_time (alrm : rtc_wkalrm) (tm : rtc_time) : rtc_wkalrm :=
  {| enabled := enabled alrm; pending := pending alrm; time := tm |}.
Definition with_pending (alrm : rtc_wkalrm) (p : Z) : rtc_wkalrm :=
  {| enabled := enabled alrm; pending := p; time := time alrm |}.

(** [alrm] is filled in place; the function hands back its final value
    next to the return code. The local [val] is not initialised in the
    source; it is read only after a successful [regmap_read]. *)
Definition mca_rtc_read_alarm (alrm : rtc_wkalrm) : M (Z * rtc_wkalrm) :=
  let data := zeroed_data in
  let val := 0 in
  let rtc_adquire_alarm := MCA_RTC_ACQUIRE_REQUESTED in
  drv <- get_rtc ;;
  (if prepare_enabled drv then
     r <- on_bus (regmap_write MCA_RTC_PREPARE_ALARM rtc_adquire_alarm) ;;
     if negb (r =? 0) then dev_warn "failed to write PREPARE_ALARM (%d)\n" [r]
     else ret tt
   else ret tt) ;;
  rd <- on_bus (regmap_bulk_read MCA_RTC_ALARM_YEAR_L data ALARM_DATA_LEN) ;;
  let '(r, data) := rd in
  if r <? 0 then ret (r, alrm)
  else
    let alrm := with_time alrm (mca_data_to_tm data (time alrm)) in
    let alrm := mca_rtc_adjust_alarm_time alrm true in
    (* Enable status *)
    rd <- on_bus (regmap_read MCA_RTC_CONTROL val) ;;
    let '(r, val) := rd in
    if r <? 0 then ret (r, alrm)
    else
      (* Pending status *)
      rd <- on_bus (regmap_read MCA_IRQ_STATUS_0 val) ;;
      let '(r, val) := rd in
      if r <? 0 then ret (r, alrm)
      else
        let alrm :=
          with_pending alrm (if negb (Z.land val MCA_RTC_ALARM =? 0) then 1 else 0) in
        ret (0, alrm).

Definition mca_rtc_alarm_irq_enable (enabled : Z) : M Z :=
  if negb (enabled =? 0) then
    r <- mca_rtc_start_alarm ;;
    if negb (r =? 0) then
      dev_err "Failed to enable alarm IRQ (%d)\n" [r] ;;
      ret r
    else
      set_alarm_enabled true ;;
      ret r
  else
    r <- mca_rtc_stop_alarm ;;
    if negb (r =? 0) then
      dev_err "Failed to disable alarm IRQ (%d)\n" [r] ;;
      ret r
    else
      set_alarm_enabled false ;;
      ret r.

(** [alrm->time] is adjusted in place before it is encoded. *)
Definition mca_rtc_set_alarm (alrm : rtc_wkalrm) : M (Z * rtc_wkalrm) :=
  let data := zeroed_data in
  let alrm := mca_rtc_adjust_alarm_time alrm false in
  let data := mca_tm_to_data (time alrm) data in
  r <- on_bus (regmap_bulk_write MCA_RTC_ALARM_YEAR_L (take ALARM_DATA_LEN data)) ;;
  if r <? 0 then ret (r, alrm)
  else
    r <- mca_rtc_alarm_irq_enable (enabled alrm) ;;
    ret (r, alrm).

(** ** Interrupt handlers *)

Definition mca_alarm_event (irq : Z) : M Z :=
  rtc_update_irq 1 (Z.lor RTC_IRQF RTC_AF) ;;
  ret IRQ_HANDLED.

Definition mca_1HZ_event (irq : Z) : M Z :=
  rtc_handle_legacy_irq 1 RTC_UF ;;
  ret IRQ_HANDLED.

Definition mca_periodic_irq_event (irq : Z) : M Z :=
  rtc_handle_legacy_irq 1 RTC_PF ;;
  ret IRQ_HANDLED.

(** ** The irq-pin-enable attribute *)

Definition _enabled : string := "enabled".
Definition _disabled : string := "disabled".

(** [!strncmp(buf, s, sizeof(s) - 1)]: [buf] starts with [s]. *)
Definition starts_with (buf s : string) : bool := String.prefix s buf.

(** The parse of the attribute text: [None] is the [-EINVAL] exit. *)
Definition parse_enable (buf : string) : option bool :=
  if starts_with buf _enabled then Some true
  else if starts_with buf _disabled then Some false
  else None.

Definition rtc_irq_pin_enable_store (buf : string) (count : Z) : M Z :=
  match parse_enable buf with
  | None => ret (- EINVAL)
  | Some enable =>
      r <- on_bus (regmap_update_bits MCA_RTC_CONTROL MCA_RTC_IRQ_PIN_EN
                     (if enable then MCA_RTC_IRQ_PIN_EN else 0)) ;;
      if negb (r =? 0) then
        dev_err "Cannot update MCA_RTC_CONTROL register (%d)\n" [r] ;;
        ret r
      else ret count
  end.

(** ** Power hooks *)

Definition mca_rtc_suspend : M Z :=
  wake <- device_may_wakeup ;;
  drv <- get_rtc ;;
  (if negb wake && alarm_enabled drv then
     (* Disable the alarm irq to avoid unwanted wakeups *)
     r <- mca_rtc_stop_alarm ;;
     if r <? 0 then dev_err "Failed to disable RTC Alarm\n" [] else ret tt
   else ret tt) ;;
  ret 0.

Definition mca_rtc_resume : M Z :=
  wake <- device_may_wakeup ;;
  drv <- get_rtc ;;
  (if negb wake && alarm_enabled drv then
     (* Enable the alarm irq, just in case it was disabled suspending *)
     r <- mca_rtc_start_alarm ;;
     if r <? 0 then dev_err "Failed to restart RTC Alarm\n" [] else ret tt
   else ret tt) ;;
  ret 0.

End Driver.

Section EntryPoints.
Context `{mca_registers}.

(** ** Interrupt lines and their handlers

    [mca_rtc_probe] requests the three named interrupt lines with one
    handler each. *)
Inductive irq_source : Type := IrqAlarm | Irq1Hz | IrqPeriodic.

Definition irq_handler (src : irq_source) : Z -> M Z :=
  match src with
  | IrqAlarm => mca_alarm_event
  | Irq1Hz => mca_1HZ_event
  | IrqPeriodic => mca_periodic_irq_event
  end.

(** The event of <linux/rtc.h> that stands for an interrupt source. *)
Definition event_flag (src : irq_source) : Z :=
  match src with
  | IrqAlarm => RTC_AF
  | Irq1Hz => RTC_UF
  | IrqPeriodic => RTC_PF
  end.

Definition notify_events (n : rtc_notify) : Z :=
  match n with
  | RtcUpdateIrq _ events => events
  | RtcHandleLegacyIrq _ mode => mode
  end.

(** ** The entry points that toggle a bit of the control register *)
Inductive control_toggle : Type :=
| StartAlarm
| StopAlarm
| AlarmIrqEnable (enabled : Z)
| UieOn
| UieOff
| PieOn
| PieOff
| IrqPinEnableStore (buf : string) (count : Z).

Definition run_toggle (op : control_toggle) (w : world) : world :=
  match op with
  | StartAlarm => snd (mca_rtc_start_alarm w)
  | StopAlarm => snd (mca_rtc_stop_alarm w)
  | AlarmIrqEnable enabled => snd (mca_rtc_alarm_irq_enable enabled w)
  | UieOn => snd (mca_rtc_ioctl RTC_MCA_UIE_ON 0 w)
  | UieOff => snd (mca_rtc_ioctl RTC_MCA_UIE_OFF 0 w)
  | PieOn => snd (mca_rtc_ioctl RTC_MCA_PIE_ON 0 w)
  | PieOff => snd (mca_rtc_ioctl RTC_MCA_PIE_OFF 0 w)
  | IrqPinEnableStore buf count => snd (rtc_irq_pin_enable_store buf count w)
  end.

(** The control bit an entry point is for. *)
Definition toggle_bit (op : control_toggle) : Z :=
  match op with
  | StartAlarm | StopAlarm | AlarmIrqEnable _ => MCA_RTC_ALARM_EN
  | UieOn | UieOff => MCA_RTC_1HZ_EN
  | PieOn | PieOff => MCA_RTC_PERIODIC_EN
  | IrqPinEnableStore _ _ => MCA_RTC_IRQ_PIN_EN
  end.

(** Whether it sets or clears the bit; [None] when it asks for nothing
    (attribute text that is neither "enabled" nor "disabled"). *)
Definition toggle_request (op : control_toggle) : option bool :=
  match op with
  | StartAlarm | UieOn | PieOn => Some true
  | StopAlarm | UieOff | PieOff => Some false
  | AlarmIrqEnable enabled => Some (negb (enabled =? 0))
  | IrqPinEnableStore buf _ => parse_enable buf
  end.

End EntryPoints.

(** ** The scripted outcomes of a run of transactions *)

(** The outcome the script holds for the transaction that comes [n]
    transactions from now ([outcome_at 0] is [next_outcome]). *)
Definition outcome_at (n : nat) (map : regmap) : option positive :=
  default None (script map !! n).

(** ** The sysfs attributes of the interrupt pin *)

(** An [unsigned int] as it lies in memory, lowest byte first. *)
Definition uint_bytes (v : Z) : list Z :=
  [v mod 256; (v / 256) mod 256; (v / 65536) mod 256; (v / 16777216) mod 256].

Definition newline : string := String (Ascii.ascii_of_nat 10) EmptyString.

(** [sprintf(buf, "%s\n", s)]: the number of characters written, and the
    text [buf] holds afterwards. *)
Definition sprintf_line (s : string) : Z * string :=
  let out := String.append s newline in
  (Z.of_nat (String.length out), out).

Section IrqPinAttributes.
Context `{mca_registers}.

(** [kstrtouint(buf, base, &value)] of the kernel library: the status
    (0, or a negative errno) and the number parsed. The driver looks at
    nothing else of it, so the parser is a parameter. *)
Variable kstrtouint : string -> Z -> Z * Z.

(** The attribute's [show]: the text goes to [buf], the return value is
    its length. The local [val] is not initialised in the source; it is
    read only after a successful [regmap_read]. *)
Definition rtc_irq_pin_enable_show (buf : string) : M (Z * string) :=
  let val := 0 in
  rd <- on_bus (regmap_read MCA_RTC_CONTROL val) ;;
  let '(r, val) := rd in
  if negb (r =? 0) then
    dev_err "Cannot read MCA MCA_RTC_CONTROL register(%d)\n" [r] ;;
    ret (0, buf)
  else
    ret (sprintf_line (if negb (Z.land val MCA_RTC_IRQ_PIN_EN =? 0)
                       then _enabled else _disabled)).

(** The write-only pin attribute: [sizeof(uint8_t)] bytes of the parsed
    [unsigned int] go to the pin register. *)
Definition rtc_irq_pin_store (buf : string) (size : Z) : M Z :=
  let '(status, value) := kstrtouint buf 0 in
  if negb (status =? 0) then
    dev_err "Invalid RTC irq pin\n" [] ;;
    ret (- EINVAL)
  else
    r <- on_bus (regmap_bulk_write MCA_RTC_IRQ_PIN
                   (take 1 (uint_bytes (to_uint value)))) ;;
    if r <? 0 then
      dev_err "Cannot set RTC irq pin (%d)\n" [r] ;;
      ret r
    else ret size.

End IrqPinAttributes.

(** ** Probe and remove *)

Definition EPROBE_DEFER : Z := 517.
Definition ENOMEM : Z := 12.
Definition ENODEV : Z := 19.
Definition ENXIO : Z := 6.

(** What the probe looks at of the parent's [struct mca_drv]: whether
    [mca->dev->parent->of_node] and [mca->dev->of_node] are set, and the
    firmware's prepare flag. *)
Record mca_drv : Type := mk_mca_drv {
  parent_of_node : bool;
  of_node : bool;
  rtc_prepare_enabled : bool
}.

(** The surroundings of a probe: the driver data of the parent device and
    the outcome of each call the probe makes into the allocator, the
    device tree, the RTC core, the interrupt layer and sysfs.
    [of_find_compatible_node] is [None] when there is no node and
    otherwise carries what [of_device_is_available] says of it;
    [devm_rtc_device_register] is [Some e] for [ERR_PTR(-e)]; it tells
    how the registration ends and no more: what the RTC core does while
    it registers the device, the calls it may make into [read_time] and
    [read_alarm] and their transactions included, is not followed. *)
Record probe_env : Type := mk_probe_env {
  parent_drvdata : option mca_drv;
  devm_kzalloc : bool;
  of_find_compatible_node : option bool;
  devm_rtc_device_register : option positive;
  platform_get_irq_byname : irq_source -> Z;
  devm_request_threaded_irq : Z -> irq_source -> Z;
  sysfs_create_group : Z
}.

(** The platform device as the probe leaves it: the driver data, whether
    [device_init_wakeup] was called, the regmap of the parent, the kernel
    log, whether an RTC device is registered, the interrupt lines whose
    request succeeded (with the handler installed), the lines handed to
    [devm_free_irq] and whether the attribute group exists. *)
Record platform_device : Type := mk_platform_device {
  drvdata : option mca_rtc;
  wakeup_init : bool;
  mca_regmap : regmap;
  klog : list printk;
  rtc_dev : bool;
  irq_actions : list (Z * irq_source);
  freed_irqs : list Z;
  sysfs_group : bool
}.

(** [devm_kzalloc]: a zeroed [struct mca_rtc]. *)
Definition zeroed_rtc : mca_rtc :=
  {| irq_alarm := 0; irq_1HZ := 0; irq_periodic := 0;
     alarm_enabled := false; prepare_enabled := false |}.

Definition set_prepare_enabled (b : bool) (r : mca_rtc) : mca_rtc :=
  {| irq_alarm := irq_alarm r; irq_1HZ := irq_1HZ r; irq_periodic := irq_periodic r;
     alarm_enabled := alarm_enabled r; prepare_enabled := b |}.
Definition set_irq_alarm (irq : Z) (r : mca_rtc) : mca_rtc :=
  {| irq_alarm := irq; irq_1HZ := irq_1HZ r; irq_periodic := irq_periodic r;
     alarm_enabled := alarm_enabled r; prepare_enabled := prepare_enabled r |}.
Definition set_irq_1HZ (irq : Z) (r : mca_rtc) : mca_rtc :=
  {| irq_alarm := irq_alarm r; irq_1HZ := irq; irq_periodic := irq_periodic r;
     alarm_enabled := alarm_enabled r; prepare_enabled := prepare_enabled r |}.
Definition set_irq_periodic (irq : Z) (r : mca_rtc) : mca_rtc :=
  {| irq_alarm := irq_alarm r; irq_1HZ := irq_1HZ r; irq_periodic := irq;
     alarm_enabled := alarm_enabled r; prepare_enabled := prepare_enabled r |}.

(** The driver data is a pointer to the [struct mca_rtc]: a store to a
    member of the struct is seen through it. *)
Definition platform_set_drvdata (r : mca_rtc) (pd : platform_device) : platform_device :=
  {| drvdata := Some r; wakeup_init := wakeup_init pd; mca_regmap := mca_regmap pd;
     klog := klog pd; rtc_dev := rtc_dev pd; irq_actions := irq_actions pd;
     freed_irqs := freed_irqs pd; sysfs_group := sysfs_group pd |}.

Definition rtc_store (f : mca_rtc -> mca_rtc) (pd : platform_device) : platform_device :=
  match drvdata pd with
  | Some r => platform_set_drvdata (f r) pd
  | None => pd
  end.

Definition device_init_wakeup (pd : platform_device) : platform_device :=
  {| drvdata := drvdata pd; wakeup_init := true; mca_regmap := mca_regmap pd;
     klog := klog pd; rtc_dev := rtc_dev pd; irq_actions := irq_actions pd;
     freed_irqs := freed_irqs pd; sysfs_group := sysfs_group pd |}.

Definition with_regmap (map : regmap) (pd : platform_device) : platform_device :=
  {| drvdata := drvdata pd; wakeup_init := wakeup_init pd; mca_regmap := map;
     klog := klog pd; rtc_dev := rtc_dev pd; irq_actions := irq_actions pd;
     freed_irqs := freed_irqs pd; sysfs_group := sysfs_group pd |}.

Definition pdev_err (fmt : string) (args : list Z) (pd : platform_device)
  : platform_device :=
  {| drvdata := drvdata pd; wakeup_init := wakeup_init pd; mca_regmap := mca_regmap pd;
     klog := klog pd ++ [DevErr fmt args]; rtc_dev := rtc_dev pd;
     irq_actions := irq_actions pd; freed_irqs := freed_irqs pd;
     sysfs_group := sysfs_group pd |}.

Definition with_rtc_dev (pd : platform_device) : platform_device :=
  {| drvdata := drvdata pd; wakeup_init := wakeup_init pd; mca_regmap := mca_regmap pd;
     klog := klog pd; rtc_dev := true; irq_actions := irq_actions pd;
     freed_irqs := freed_irqs pd; sysfs_group := sysfs_group pd |}.

Definition with_irq_action (irq : Z) (src : irq_source) (pd : platform_device)
  : platform_device :=
  {| drvdata := drvdata pd; wakeup_init := wakeup_init pd; mca_regmap := mca_regmap pd;
     klog := klog pd; rtc_dev := rtc_dev pd;
     irq_actions := irq_actions pd ++ [(irq, src)];
     freed_irqs := freed_irqs pd; sysfs_group := sysfs_group pd |}.

Definition devm_free_irq (irq : Z) (pd : platform_device) : platform_device :=
  {| drvdata := drvdata pd; wakeup_init := wakeup_init pd; mca_regmap := mca_regmap pd;
     klog := klog pd; rtc_dev := rtc_dev pd; irq_actions := irq_actions pd;
     freed_irqs := freed_irqs pd ++ [irq]; sysfs_group := sysfs_group pd |}.

Definition with_sysfs_group (pd : platform_device) : platform_device :=
  {| drvdata := drvdata pd; wakeup_init := wakeup_init pd; mca_regmap := mca_regmap pd;
     klog := klog pd; rtc_dev := rtc_dev pd; irq_actions := irq_actions pd;
     freed_irqs := freed_irqs pd; sysfs_group := true |}.

Section Probe.
Context `{mca_registers}.
Variable env : probe_env.

(** The block the probe runs for each of its three interrupt lines: the
    number found by name is stored in the member of the line, the
    threaded handler is requested for it, and a failed request is
    reported and leaves [-ENXIO] in the member. *)
Definition request_line (src : irq_source) (member : Z -> mca_rtc -> mca_rtc)
    (pd : platform_device) : platform_device :=
  let irq := platform_get_irq_byname env src in
  let pd := rtc_store (member irq) pd in
  let ret := devm_request_threaded_irq env irq src in
  if negb (ret =? 0) then
    let pd := pdev_err "Failed to request %s IRQ. (%d)\n" [irq] pd in
    rtc_store (member (- ENXIO)) pd
  else with_irq_action irq src pd.

Definition mca_rtc_probe (pd : platform_device) : Z * platform_device :=
  match parent_drvdata env with
  | None => (- EPROBE_DEFER, pd)
  | Some mca =>
      if negb (parent_of_node mca) then (- EPROBE_DEFER, pd)
      else if negb (devm_kzalloc env) then (- ENOMEM, pd)
      else
        let pd := platform_set_drvdata zeroed_rtc pd in
        let pd := device_init_wakeup pd in
        (* Use prepare command depending on the version of the firmware *)
        let pd := rtc_store (set_prepare_enabled (rtc_prepare_enabled mca)) pd in
        (* Find entry in device-tree *)
        let found :=
          if of_node mca then
            match of_find_compatible_node env with
            | None => false
            | Some available => available
            end
          else true in
        if negb found then (- ENODEV, pd)
        else
          (* Enable RTC hardware *)
          let '(ret, map) :=
            regmap_update_bits MCA_RTC_CONTROL MCA_RTC_EN MCA_RTC_EN (mca_regmap pd) in
          let pd := with_regmap map pd in
          if ret <? 0 then (ret, pdev_err "Failed to enable RTC.\n" [] pd)
          else
            (* Register RTC device *)
            match devm_rtc_device_register env with
            | Some e =>
                (Z.neg e,
                 pdev_err "Failed to register RTC device: %ld\n" [Z.neg e] pd)
            | None =>
                let pd := with_rtc_dev pd in
                let pd := request_line IrqAlarm set_irq_alarm pd in
                let pd := request_line Irq1Hz set_irq_1HZ pd in
                let pd := request_line IrqPeriodic set_irq_periodic pd in
                let ret := sysfs_create_group env in
                if negb (ret =? 0) then
                  (ret, pdev_err "Failed to create sysfs entries (%d).\n" [ret] pd)
                else (0, with_sysfs_group pd)
            end
  end.

End Probe.

(** [mca_rtc_remove]: only the alarm line is freed by hand. No value when
    the device has no driver data (the probe did not get to set it). *)
Definition mca_rtc_remove (pd : platform_device) : option (Z * platform_device) :=
  match drvdata pd with
  | None => None
  | Some r =>
      Some (0, if 0 <=? irq_alarm r then devm_free_irq (irq_alarm r) pd else pd)
  end.

(** Whether a probe in these surroundings gets as far as the hardware:
    the parent is there, the driver state could be allocated and the
    device tree has an available node for the RTC (or none is looked
    for). *)
Definition probe_reaches_hardware (env : probe_env) : bool :=
  match parent_drvdata env with
  | None => false
  | Some mca =>
      parent_of_node mca && devm_kzalloc env
      && (if of_node mca
          then match of_find_compatible_node env with
               | None => false
               | Some available => available
               end
          else true)
  end.

(** What the probe leaves in the member of an interrupt line, and the
    handlers it has installed. *)
Definition line_member (env : probe_env) (src : irq_source) : Z :=
  let irq := platform_get_irq_byname env src in
  if devm_request_threaded_irq env irq src =? 0 then irq else - ENXIO.

Definition line_action (env : probe_env) (src : irq_source) : list (Z * irq_source) :=
  let irq := platform_get_irq_byname env src in
  if devm_request_threaded_irq env irq src =? 0 then [(irq, src)] else [].

Definition line_log (env : probe_env) (src : irq_source) : list printk :=
  let irq := platform_get_irq_byname env src in
  if devm_request_threaded_irq env irq src =? 0 then []
  else [DevErr "Failed to request %s IRQ. (%d)\n" [irq]].

(** The same surroundings with another interrupt layer. *)
Definition with_irq_layer (get : irq_source -> Z) (request : Z -> irq_source -> Z)
    (env : probe_env) : probe_env :=
  {| parent_drvdata := parent_drvdata env;
     devm_kzalloc := devm_kzalloc env;
     of_find_compatible_node := of_find_compatible_node env;
     devm_rtc_device_register := devm_rtc_device_register env;
     platform_get_irq_byname := get;
     devm_request_threaded_irq := request;
     sysfs_create_group := sysfs_create_group env |}.

(** A platform device before its probe. *)
Definition unbound_device (map : regmap) : platform_device :=
  {| drvdata := None; wakeup_init := false; mca_regmap := map; klog := [];
     rtc_dev := false; irq_actions := []; freed_irqs := []; sysfs_group := false |}.

(** The device as the callbacks of the driver find it after a probe: the
    state behind the driver data, the regmap of the parent and the kernel
    log; [wake] is the wake-up setting of the platform device. *)
Definition world_of (r : mca_rtc) (wake : bool) (pd : platform_device) : world :=
  {| rtc := r; bus := mca_regmap pd; may_wakeup := wake; dmesg := klog pd;
     notified := []; umem := ∅ |}.

(** The commands the ioctl shim answers. *)
Definition mca_ioctl_cmds : list Z :=
  [RTC_MCA_UIE_ON; RTC_MCA_UIE_OFF; RTC_MCA_PIE_ON; RTC_MCA_PIE_OFF;
   RTC_MCA_IRQP_READ; RTC_MCA_IRQP_SET].

(** A register that does not lie in the seven-byte block at [base]. *)
Definition outside_block (reg base : Z) : Prop := reg < base \/ base + 6 < reg.

(** ** A concrete device for the examples *)

(** A register layout in the style of the MCA header: the control
    register followed by the two seven-byte blocks, one control bit each
    for the RTC, the alarm, the 1 Hz, the periodic and the irq-pin enable,
    and field masks of 8, 8, 4, 5, 5, 6 and 6 bits. *)
Definition sample_registers : mca_registers :=
  {| MCA_IRQ_STATUS_0 := 32;
     MCA_RTC_ALARM := 1;
     MCA_RTC_CONTROL := 257;
     MCA_RTC_EN := 1;
     MCA_RTC_ALARM_EN := 2;
     MCA_RTC_1HZ_EN := 4;
     MCA_RTC_PERIODIC_EN := 8;
     MCA_RTC_IRQ_PIN_EN := 16;
     MCA_RTC_COUNT_YEAR_L := 258;
     MCA_RTC_ALARM_YEAR_L := 265;
     MCA_RTC_PREPARE_DATETIME := 272;
     MCA_RTC_PREPARE_ALARM := 273;
     MCA_RTC_PERIODIC_IRQ_FREQ := 274;
     MCA_RTC_IRQ_PIN := 276;
     MCA_RTC_YEAR_L_MASK := 255;
     MCA_RTC_YEAR_H_MASK := 255;
     MCA_RTC_MONTH_MASK := 15;
     MCA_RTC_DAY_MASK := 31;
     MCA_RTC_HOUR_MASK := 31;
     MCA_RTC_MIN_MASK := 63;
     MCA_RTC_SEC_MASK := 63 |}.

(** A freshly probed device: the RTC enabled, every other register at its
    reset value, no transport fault scheduled. *)
Definition sample_world : world :=
  {| rtc := {| irq_alarm := 40; irq_1HZ := 41; irq_periodic := 42;
               alarm_enabled := false; prepare_enabled := true |};
     bus := {| regs := {[ 257 := 1 ]}; script := []; xlog := [] |};
     may_wakeup := false;
     dmesg := [];
     notified := [];
     umem := ∅ |}.

(** 2024-03-01 12:00:00, a Friday. *)
Definition noon_2024_03_01 : rtc_time :=
  {| tm_sec := 0; tm_min := 0; tm_hour := 12; tm_mday := 1; tm_mon := 2;
     tm_year := 124; tm_wday := 5; tm_yday := 61; tm_isdst := 0 |}.

(** 2024-12-31 23:59:59, the last second of a leap year. *)
Definition last_second_of_2024 : rtc_time :=
  {| tm_sec := 59; tm_min := 59; tm_hour := 23; tm_mday := 31; tm_mon := 11;
     tm_year := 124; tm_wday := 2; tm_yday := 366; tm_isdst := 0 |}.

(** 1970-01-01 00:00:00, a Thursday: the epoch, with timestamp 0. *)
Definition epoch_1970 : rtc_time :=
  {| tm_sec := 0; tm_min := 0; tm_hour := 0; tm_mday := 1; tm_mon := 0;
     tm_year := 70; tm_wday := 4; tm_yday := 1; tm_isdst := 0 |}.

(** What the RTC core hands to [read_alarm]: a cleared [rtc_wkalrm]. *)
Definition cleared_alarm : rtc_wkalrm :=
  {| enabled := 0; pending := 0;
     time := {| tm_sec := 0; tm_min := 0; tm_hour := 0; tm_mday := 0; tm_mon := 0;
                tm_year := 0; tm_wday := 0; tm_yday := 0; tm_isdst := 0 |} |}.

(** Surroundings in which everything works but the request of the 1 Hz
    line. *)
Definition sample_env : probe_env :=
  {| parent_drvdata :=
       Some {| parent_of_node := true; of_node := true; rtc_prepare_enabled := true |};
     devm_kzalloc := true;
     of_find_compatible_node := Some true;
     devm_rtc_device_register := None;
     platform_get_irq_byname :=
       (fun src => match src with IrqAlarm => 40 | Irq1Hz => 41 | IrqPeriodic => 42 end);
     devm_request_threaded_irq :=
       (fun irq src => match src with Irq1Hz => -16 | _ => 0 end);
     sysfs_create_group := 0 |}.

(** The sample device with a transport fault ([-EIO]) scheduled for the
    next transaction. *)
Definition faulty_world : world :=
  {| rtc := rtc sample_world;
     bus := {| regs := {[ 257 := 1 ]}; script := [Some 5%positive]; xlog := [] |};
     may_wakeup := false; dmesg := []; notified := []; umem := ∅ |}.

(** The sample device with the alarm armed, in the driver state and in
    the control register, and wake-up disabled. *)
Definition armed_world : world :=
  {| rtc := {| irq_alarm := 40; irq_1HZ := 41; irq_periodic := 42;
               alarm_enabled := true; prepare_enabled := true |};
     bus := {| regs := {[ 257 := 3 ]}; script := []; xlog := [] |};
     may_wakeup := false; dmesg := []; notified := []; umem := ∅ |}.

(** ** Proof steps used more than once *)

(** Split on the twelve values of a month index. *)
Ltac each_month m :=
  let Hcases := fresh "Hcases" in
  assert (Hcases : m = 0 \/ m = 1 \/ m = 2 \/ m = 3 \/ m = 4 \/ m = 5 \/ m = 6
                   \/ m = 7 \/ m = 8 \/ m = 9 \/ m = 10 \/ m = 11) by lia;
  destruct Hcases as
    [-> | [-> | [-> | [-> | [-> | [-> | [-> | [-> | [-> | [-> | [-> | ->]]]]]]]]]]].

(** Project out of the records a run of the driver builds. *)
Ltac world_simpl :=
  cbn [fst snd rtc bus may_wakeup dmesg notified umem alarm_enabled prepare_enabled
       irq_alarm irq_1HZ irq_periodic regs script xlog enabled pending time].

(** Run the state monad's plumbing of a driver function. *)
Create HintDb drv.
#[global] Hint Unfold bind ret get_rtc set_alarm_enabled dev_err dev_warn log_line
  device_may_wakeup notify rtc_update_irq rtc_handle_legacy_irq put_user : drv.

Ltac run_driver := repeat progress (try autounfold with drv; world_simpl).

(** * Properties *)

(** ** Bit-level facts *)

Lemma to_u8_testbit z n :
  Z.testbit (to_u8 z) n = (n <? 8) && Z.testbit z n.
Proof.
  unfold to_u8. destruct (Z.ltb_spec n 8) as [Hlt | Hge].
  - destruct (Z.neg_nonneg_cases n) as [Hn | Hn].
    + rewrite !Z.testbit_neg_r by lia. reflexivity.
    + rewrite Z.mod_pow2_bits_low by lia. reflexivity.
  - rewrite Z.mod_pow2_bits_high by lia. reflexivity.
Qed.

Lemma to_u8_range z : is_u8 (to_u8 z).
Proof. unfold is_u8, to_u8. pose proof (Z.mod_pos_bound z (2 ^ 8)). lia. Qed.

Lemma is_u8_testbit_high z n : is_u8 z -> 8 <= n -> Z.testbit z n = false.
Proof.
  intros Hz Hn. unfold is_u8 in Hz.
  replace z with (to_u8 z).
  - rewrite to_u8_testbit. destruct (Z.ltb_spec n 8); [lia | reflexivity].
  - unfold to_u8. apply Z.mod_small. lia.
Qed.

(** A read-modify-write through a [u8]: two stores are one masked merge. *)
Lemma masked_store_u8 d m v :
  to_u8 (Z.lor (to_u8 (Z.land d (Z.lnot m))) (Z.land v m))
  = to_u8 (Z.lor (Z.land d (Z.lnot m)) (Z.land v m)).
Proof.
  apply Z.bits_inj'. intros n Hn.
  rewrite !to_u8_testbit, !Z.lor_spec, !to_u8_testbit.
  destruct (n <? 8); reflexivity.
Qed.

Lemma masked_store_u8_cast d m v :
  to_u8 (Z.lor (to_u8 (Z.land d (to_u8 (Z.lnot m)))) (Z.land v m))
  = to_u8 (Z.lor (Z.land d (Z.lnot m)) (Z.land v m)).
Proof.
  apply Z.bits_inj'. intros n Hn.
  rewrite !to_u8_testbit, !Z.lor_spec, !to_u8_testbit, !Z.land_spec, !to_u8_testbit.
  destruct (n <? 8); [| reflexivity]. simpl. reflexivity.
Qed.

(** A value below [2 ^ k] passes unchanged through a mask that has the
    low [k] bits set. *)
Lemma land_covering_mask v m k :
  0 <= k -> 0 <= v < 2 ^ k -> Z.land m (2 ^ k - 1) = 2 ^ k - 1 -> Z.land v m = v.
Proof.
  intros Hk Hv Hm.
  assert (Hones : Z.land v (2 ^ k - 1) = v).
  { replace (2 ^ k - 1) with (Z.ones k) by (rewrite Z.ones_equiv; lia).
    rewrite Z.land_ones by lia. apply Z.mod_small. lia. }
  rewrite <- Hones at 1.
  rewrite <- Z.land_assoc, (Z.land_comm (2 ^ k - 1) m), Hm. exact Hones.
Qed.


Lemma to_u8_small z : is_u8 z -> to_u8 z = z.
Proof. unfold is_u8, to_u8. intros Hz. apply Z.mod_small. lia. Qed.

Lemma to_int_small z : - 2 ^ 31 <= z < 2 ^ 31 -> to_int z = z.
Proof. unfold to_int. intros Hz. rewrite Z.mod_small; lia. Qed.

(** Decoding a freshly merged byte sees the new value only. *)
Lemma land_masked_store d m v :
  Z.land (to_u8 (Z.lor (Z.land d (Z.lnot m)) (Z.land v m))) m = Z.land (to_u8 v) m.
Proof.
  apply Z.bits_inj'. intros n Hn.
  rewrite !Z.land_spec, !to_u8_testbit, Z.lor_spec, !Z.land_spec, Z.lnot_spec by lia.
  destruct (n <? 8), (Z.testbit d n), (Z.testbit v n), (Z.testbit m n); reflexivity.
Qed.

Lemma field_roundtrip d m v k :
  0 <= k <= 8 -> 0 <= v < 2 ^ k -> Z.land m (2 ^ k - 1) = 2 ^ k - 1 ->
  Z.land (to_u8 (Z.lor (Z.land d (Z.lnot m)) (Z.land v m))) m = v.
Proof.
  intros Hk Hv Hm. rewrite land_masked_store.
  assert (2 ^ k <= 2 ^ 8) by (apply Z.pow_le_mono_r; lia).
  rewrite to_u8_small by (unfold is_u8; lia).
  apply (land_covering_mask v m k); [lia | lia | exact Hm].
Qed.

Lemma join_u16 y : 0 <= y -> Z.lor (Z.shiftl (Z.shiftr y 8) 8) (to_u8 y) = y.
Proof.
  intros Hy. apply Z.bits_inj'. intros n Hn.
  rewrite Z.lor_spec, to_u8_testbit.
  destruct (Z.ltb_spec n 8) as [Hlt | Hge].
  - rewrite Z.shiftl_spec_low by lia. reflexivity.
  - rewrite Z.shiftl_spec by lia. rewrite Z.shiftr_spec by lia.
    replace (n - 8 + 8) with n by lia. simpl. apply orb_false_r.
Qed.

Lemma byte_at_is_u8 data i : Forall is_u8 data -> is_u8 (byte_at data i).
Proof.
  intros Hall. unfold byte_at.
  destruct (data !! i) as [b |] eqn:Hb; simpl.
  - exact (proj1 (Forall_lookup is_u8 data) Hall i b Hb).
  - unfold is_u8. lia.
Qed.

Section CodecFacts.
Context `{mca_registers}.

Lemma mca_tm_to_data_length tm data :
  length (mca_tm_to_data tm data) = length data.
Proof.
  unfold mca_tm_to_data, and_assign, or_assign.
  repeat (rewrite length_insert; cbv zeta). reflexivity.
Qed.

(** Byte [i] of an encoded block: the old byte with the field's mask bits
    replaced by the masked new value. *)
Lemma mca_tm_to_data_byte tm data i :
  length data = 7%nat -> (i < 7)%nat ->
  byte_at (mca_tm_to_data tm data) i
  = to_u8 (Z.lor (Z.land (byte_at data i) (Z.lnot (field_mask i)))
                 (Z.land (field_value tm i) (field_mask i))).
Proof.
  intros Hlen Hi.
  destruct data as [| d0 [| d1 [| d2 [| d3 [| d4 [| d5 [| d6 [| ? ?]]]]]]]];
    try discriminate Hlen.
  destruct i as [| [| [| [| [| [| [| i]]]]]]]; try lia.
  all: cbv -[to_u8 to_int Z.land Z.lor Z.lnot Z.shiftr Z.add
             MCA_RTC_YEAR_L_MASK MCA_RTC_YEAR_H_MASK MCA_RTC_MONTH_MASK
             MCA_RTC_DAY_MASK MCA_RTC_HOUR_MASK MCA_RTC_MIN_MASK MCA_RTC_SEC_MASK
             tm_year tm_mon tm_mday tm_hour tm_min tm_sec].
  1, 2: apply masked_store_u8_cast.
  all: apply masked_store_u8.
Qed.

(** C6. For every calendar time and every initial content of the seven
    byte buffer, [mca_tm_to_data] leaves every bit that lies outside the
    field mask of its byte as it was. *)
Theorem mca_tm_to_data_preserves_foreign_bits tm data i n :
  length data = 7%nat -> Forall is_u8 data -> (i < 7)%nat ->
  Z.testbit (field_mask i) n = false ->
  Z.testbit (byte_at (mca_tm_to_data tm data) i) n = Z.testbit (byte_at data i) n.
Proof.
  intros Hlen Hall Hi Hmask.
  rewrite mca_tm_to_data_byte by assumption.
  rewrite to_u8_testbit.
  destruct (Z.ltb_spec n 8) as [Hlt | Hge]; simpl.
  - destruct (Z.neg_nonneg_cases n) as [Hn | Hn].
    + rewrite !Z.testbit_neg_r by lia. reflexivity.
    + rewrite Z.lor_spec, !Z.land_spec, Z.lnot_spec, Hmask by lia.
      simpl. rewrite andb_true_r, andb_false_r, orb_false_r. reflexivity.
  - symmetry. apply is_u8_testbit_high; [| lia].
    apply byte_at_is_u8. exact Hall.
Qed.

(** Decoding what was encoded over any block gives the calendar fields
    back; the fields [mca_data_to_tm] does not write keep their value. *)
Lemma mca_codec_roundtrip tm dst data :
  masks_cover_fields -> in_hw_range tm -> length data = 7%nat ->
  mca_data_to_tm (mca_tm_to_data tm data) dst = with_calendar_of tm dst.
Proof.
  intros (HyL & HyH & Hmon & Hday & Hhour & Hmin & Hsec).
  intros (Hy & Hm & Hd & Hh & Hmi & Hs) Hlen.
  unfold mca_data_to_tm, with_calendar_of,
    DATA_YEAR_L, DATA_YEAR_H, DATA_MONTH, DATA_DAY, DATA_HOUR, DATA_MIN, DATA_SEC.
  rewrite !mca_tm_to_data_byte by (assumption || lia).
  cbn [field_mask field_value].
  rewrite !(to_int_small (tm_year tm + 1900)) by lia.
  rewrite (to_int_small (tm_mon tm + 1)) by lia.
  rewrite (field_roundtrip _ _ (tm_mon tm + 1) 4) by (simpl; lia || assumption).
  rewrite (field_roundtrip _ _ (tm_mday tm) 5) by (simpl; lia || assumption).
  rewrite (field_roundtrip _ _ (tm_hour tm) 5) by (simpl; lia || assumption).
  rewrite (field_roundtrip _ _ (tm_min tm) 6) by (simpl; lia || assumption).
  rewrite (field_roundtrip _ _ (tm_sec tm) 6) by (simpl; lia || assumption).
  rewrite !land_masked_store.
  rewrite (land_covering_mask (to_u8 (tm_year tm + 1900)) _ 8)
    by (try apply to_u8_range; simpl; lia || assumption).
  rewrite (land_covering_mask (to_u8 (Z.shiftr (tm_year tm + 1900) 8)) _ 8)
    by (try apply to_u8_range; simpl; lia || assumption).
  assert (Hhi : to_u8 (Z.shiftr (tm_year tm + 1900) 8) = Z.shiftr (tm_year tm + 1900) 8).
  { apply to_u8_small. unfold is_u8. rewrite Z.shiftr_div_pow2 by lia.
    change (2 ^ 8) with 256. split.
    - apply Z.div_pos; lia.
    - apply Z.div_lt_upper_bound; lia. }
  rewrite Hhi, join_u16 by lia.
  rewrite !to_int_small by lia.
  f_equal; lia.
Qed.

(** C1. For every calendar time in the range of the hardware, decoding
    the encoding of the value into a zeroed seven byte buffer returns the
    value, the year-1900 and month-1 offsets of the host convention
    included. *)
Theorem mca_codec_roundtrip_zeroed tm :
  masks_cover_fields -> in_hw_range tm ->
  mca_data_to_tm (mca_tm_to_data tm (replicate 7 0)) tm = tm
  /\ forall dst,
       mca_data_to_tm (mca_tm_to_data tm (replicate 7 0)) dst = with_calendar_of tm dst.
Proof.
  intros Hmasks Hrange. split.
  - rewrite mca_codec_roundtrip by (assumption || reflexivity).
    destruct tm. reflexivity.
  - intros dst. apply mca_codec_roundtrip; (assumption || reflexivity).
Qed.

End CodecFacts.

(** ** The calendar conversions are inverse to each other *)

Lemma leaps_step y : LEAPS_THRU_END_OF y = LEAPS_THRU_END_OF (y - 1) + leap_day y.
Proof.
  unfold LEAPS_THRU_END_OF, leap_day, is_leap_year.
  destruct (Z.eqb_spec (y mod 4) 0), (Z.eqb_spec (y mod 100) 0), (Z.eqb_spec (y mod 400) 0);
    simpl; Z.div_mod_to_equations; lia.
Qed.

Lemma days_before_year_succ y :
  days_before_year (y + 1) = days_before_year y + 365 + leap_day y.
Proof.
  unfold days_before_year. replace (y + 1 - 1) with y by lia.
  rewrite (leaps_step y). lia.
Qed.

Lemma days_before_year_1970 : days_before_year 1970 = 0.
Proof. reflexivity. Qed.

Lemma days_before_year_mono y1 y2 :
  y1 <= y2 -> days_before_year y1 + 365 * (y2 - y1) <= days_before_year y2.
Proof.
  intros Hle. unfold days_before_year, LEAPS_THRU_END_OF.
  Z.div_mod_to_equations. lia.
Qed.

(** The year loop stops at the year the day count falls in. *)
Lemma year_of_days_spec fuel : forall year D,
  1970 <= year -> year - 1970 <= Z.of_nat fuel ->
  0 <= D < days_before_year (year + 1) ->
  exists Y, year_of_days fuel year (D - days_before_year year) = (Y, D - days_before_year Y)
            /\ 1970 <= Y <= year
            /\ days_before_year Y <= D < days_before_year (Y + 1).
Proof.
  induction fuel as [| fuel IH]; intros year D Hyear Hfuel HD.
  - assert (year = 1970) by lia. subst year. exists 1970. simpl.
    rewrite days_before_year_1970. split; [reflexivity |]. lia.
  - cbn [year_of_days].
    destruct (Z.ltb_spec (D - days_before_year year) 0) as [Hneg | Hpos].
    + assert (Hgt : 1970 < year).
      { destruct (Z.eq_dec year 1970) as [-> |]; [| lia].
        rewrite days_before_year_1970 in Hneg. lia. }
      pose proof (days_before_year_succ (year - 1)) as Hs.
      replace (year - 1 + 1) with year in Hs by lia.
      replace (D - days_before_year year + 365 + (if is_leap_year (year - 1) then 1 else 0))
        with (D - days_before_year (year - 1)) by (unfold leap_day in Hs; lia).
      destruct (IH (year - 1) D) as (Y & HY & Hr & Hb); try lia.
      { replace (year - 1 + 1) with year by lia. lia. }
      exists Y. split; [exact HY |]. lia.
    + exists year. split; [reflexivity |]. lia.
Qed.

Lemma year_unique Y1 Y2 D :
  days_before_year Y1 <= D < days_before_year (Y1 + 1) ->
  days_before_year Y2 <= D < days_before_year (Y2 + 1) ->
  Y1 = Y2.
Proof.
  intros H1 H2.
  destruct (Z.lt_trichotomy Y1 Y2) as [Hlt | [Heq | Hgt]]; [| exact Heq |].
  - pose proof (days_before_year_mono (Y1 + 1) Y2). lia.
  - pose proof (days_before_year_mono (Y2 + 1) Y1). lia.
Qed.

Lemma days_before_month_succ m year :
  0 <= m <= 10 ->
  days_before_month (m + 1) year = days_before_month m year + rtc_month_days m year.
Proof.
  intros Hm. unfold days_before_month, rtc_month_days.
  each_month m; try lia; destruct (is_leap_year year); reflexivity.
Qed.

Lemma days_before_month_0 year : days_before_month 0 year = 0.
Proof. unfold days_before_month. simpl. rewrite andb_false_r. reflexivity. Qed.

Lemma days_before_month_11 year :
  days_before_month 11 year + rtc_month_days 11 year = 365 + leap_day year.
Proof.
  unfold days_before_month, rtc_month_days, leap_day.
  destruct (is_leap_year year); reflexivity.
Qed.

Lemma rtc_month_days_pos m year : 0 <= m <= 11 -> 28 <= rtc_month_days m year <= 31.
Proof.
  intros Hm. unfold rtc_month_days.
  each_month m; destruct (is_leap_year year); simpl; lia.
Qed.

(** The month loop, started at any month with the days that are left. *)
Lemma month_of_days_gen n : forall month year rest m d,
  0 <= month -> month + Z.of_nat n = 11 ->
  0 <= rest < 365 + leap_day year - days_before_month month year ->
  month_of_days n month year rest = (m, d) ->
  month <= m <= 11 /\ 0 <= d < rtc_month_days m year
  /\ rest + days_before_month month year = days_before_month m year + d.
Proof.
  induction n as [| n IH]; intros month year rest m d Hmonth Hn Hrest Hrun.
  - assert (month = 11) by lia. subst month.
    simpl in Hrun. injection Hrun as <- <-.
    pose proof (days_before_month_11 year). lia.
  - cbn [month_of_days] in Hrun.
    destruct (Z.ltb_spec (rest - rtc_month_days month year) 0) as [Hin | Hout].
    + injection Hrun as <- <-. lia.
    + pose proof (days_before_month_succ month year) as Hs.
      apply IH in Hrun; lia.
Qed.

Lemma month_of_days_spec year doy m d :
  0 <= doy < 365 + leap_day year ->
  month_of_days 11 0 year doy = (m, d) ->
  0 <= m <= 11 /\ 0 <= d < rtc_month_days m year
  /\ doy = days_before_month m year + d.
Proof.
  intros Hdoy Hrun. pose proof (days_before_month_0 year) as H0.
  apply month_of_days_gen in Hrun; lia.
Qed.

Lemma days_before_month_mono m1 m2 year :
  0 <= m1 -> m1 < m2 -> m2 <= 11 ->
  days_before_month m1 year + rtc_month_days m1 year <= days_before_month m2 year.
Proof.
  intros H1 Hlt H2.
  assert (Hex : exists k : nat, m2 = m1 + 1 + Z.of_nat k).
  { exists (Z.to_nat (m2 - m1 - 1)). lia. }
  destruct Hex as [k ->]. induction k as [| k IH].
  - rewrite Z.add_0_r, days_before_month_succ by lia. lia.
  - replace (m1 + 1 + Z.of_nat (S k)) with (m1 + 1 + Z.of_nat k + 1) by lia.
    rewrite days_before_month_succ by lia.
    pose proof (rtc_month_days_pos (m1 + 1 + Z.of_nat k) year).
    assert (days_before_month m1 year + rtc_month_days m1 year
            <= days_before_month (m1 + 1 + Z.of_nat k) year) by (apply IH; lia).
    lia.
Qed.

Lemma month_unique m1 m2 d1 d2 year :
  0 <= m1 <= 11 -> 0 <= m2 <= 11 ->
  0 <= d1 < rtc_month_days m1 year -> 0 <= d2 < rtc_month_days m2 year ->
  days_before_month m1 year + d1 = days_before_month m2 year + d2 ->
  m1 = m2 /\ d1 = d2.
Proof.
  intros H1 H2 Hd1 Hd2 Heq.
  destruct (Z.lt_trichotomy m1 m2) as [Hlt | [-> | Hgt]].
  - pose proof (days_before_month_mono m1 m2 year). lia.
  - lia.
  - pose proof (days_before_month_mono m2 m1 year). lia.
Qed.

(** The day count inside [mktime64]. *)
Lemma mktime64_days year m day hour min sec :
  0 <= m <= 11 ->
  mktime64 year (m + 1) day hour min sec
  = (((days_before_year year + days_before_month m year + day - 1) * 24 + hour) * 60
     + min) * 60 + sec.
Proof.
  intros Hm.
  pose proof (leaps_step year) as Hleap.
  unfold mktime64, days_before_year, days_before_month, leap_day, LEAPS_THRU_END_OF in *.
  do 3 f_equal.
  destruct (is_leap_year year); each_month m.
  all: match goal with
       | |- context [?a <=? 0] =>
           let v := eval vm_compute in (a <=? 0) in change (a <=? 0) with v
       end.
  all: match goal with
       | |- context [default 0 (?l !! ?k) + ?b] =>
           let v := eval vm_compute in (default 0 (l !! k) + b) in
           change (default 0 (l !! k) + b) with v
       end.
  all: cbv beta iota.
  all: Z.div_mod_to_equations; lia.
Qed.

Lemma rtc_valid_tm_calendar_ok tm : rtc_valid_tm tm = 0 -> calendar_ok tm.
Proof.
  unfold rtc_valid_tm, calendar_ok.
  destruct (Z.ltb_spec (tm_year tm) 70); [discriminate |].
  destruct (Z.ltb_spec (INT_MAX - 1900) (tm_year tm)); [discriminate |].
  destruct (Z.leb_spec 0 (tm_mon tm)); [| discriminate].
  destruct (Z.ltb_spec (tm_mon tm) 12); [| discriminate].
  destruct (Z.ltb_spec (tm_mday tm) 1); [discriminate |].
  destruct (Z.ltb_spec (rtc_month_days (tm_mon tm) (tm_year tm + 1900)) (tm_mday tm));
    [discriminate |].
  destruct (Z.leb_spec 0 (tm_hour tm)); [| discriminate].
  destruct (Z.ltb_spec (tm_hour tm) 24); [| discriminate].
  destruct (Z.leb_spec 0 (tm_min tm)); [| discriminate].
  destruct (Z.ltb_spec (tm_min tm) 60); [| discriminate].
  destruct (Z.leb_spec 0 (tm_sec tm)); [| discriminate].
  destruct (Z.ltb_spec (tm_sec tm) 60); [| discriminate].
  intros _. lia.
Qed.

Lemma rtc_tm_to_time64_days tm :
  0 <= tm_mon tm <= 11 ->
  rtc_tm_to_time64 tm
  = ((day_number tm * 24 + tm_hour tm) * 60 + tm_min tm) * 60 + tm_sec tm.
Proof. intros Hm. unfold rtc_tm_to_time64, day_number. apply mktime64_days. exact Hm. Qed.

Lemma day_number_year tm :
  calendar_ok tm ->
  days_before_year (tm_year tm + 1900) <= day_number tm
  < days_before_year (tm_year tm + 1900 + 1).
Proof.
  intros (Hy & Hm & Hd & _). unfold day_number.
  rewrite days_before_year_succ.
  assert (Hle : days_before_month (tm_mon tm) (tm_year tm + 1900)
                + rtc_month_days (tm_mon tm) (tm_year tm + 1900)
                <= 365 + leap_day (tm_year tm + 1900)).
  { destruct (Z.eq_dec (tm_mon tm) 11) as [-> | Hne].
    - rewrite days_before_month_11. lia.
    - pose proof (days_before_month_mono (tm_mon tm) 11 (tm_year tm + 1900)).
      pose proof (days_before_month_11 (tm_year tm + 1900)).
      pose proof (rtc_month_days_pos 11 (tm_year tm + 1900)). lia. }
  assert (0 <= days_before_month (tm_mon tm) (tm_year tm + 1900)).
  { destruct (Z.eq_dec (tm_mon tm) 0) as [-> | Hne].
    - rewrite days_before_month_0. lia.
    - pose proof (days_before_month_mono 0 (tm_mon tm) (tm_year tm + 1900)).
      pose proof (days_before_month_0 (tm_year tm + 1900)).
      pose proof (rtc_month_days_pos 0 (tm_year tm + 1900)). lia. }
  lia.
Qed.

(** [rtc_tm_to_time64] is one-to-one on calendar dates. *)
Lemma rtc_tm_to_time64_inj tm1 tm2 :
  calendar_ok tm1 -> calendar_ok tm2 ->
  rtc_tm_to_time64 tm1 = rtc_tm_to_time64 tm2 ->
  with_calendar_of tm1 tm2 = tm2.
Proof.
  intros Hok1 Hok2 Heq.
  pose proof (day_number_year tm1 Hok1) as Hy1.
  pose proof (day_number_year tm2 Hok2) as Hy2.
  destruct Hok1 as (Hyr1 & Hm1 & Hd1 & Hh1 & Hmi1 & Hs1).
  destruct Hok2 as (Hyr2 & Hm2 & Hd2 & Hh2 & Hmi2 & Hs2).
  rewrite !rtc_tm_to_time64_days in Heq by assumption.
  assert (Hday : day_number tm1 = day_number tm2) by lia.
  assert (Hyear : tm_year tm1 + 1900 = tm_year tm2 + 1900).
  { apply (year_unique _ _ (day_number tm1)); [exact Hy1 | rewrite Hday; exact Hy2]. }
  unfold day_number in Hday. rewrite Hyear in Hday, Hd1.
  destruct (month_unique (tm_mon tm1) (tm_mon tm2) (tm_mday tm1 - 1) (tm_mday tm2 - 1)
              (tm_year tm2 + 1900)) as [Hmon Hmday]; try lia.
  destruct tm1, tm2; unfold with_calendar_of; simpl in *.
  f_equal; lia.
Qed.

(** A non-negative timestamp converts to a calendar date, and the date
    converts back to the timestamp. *)
Lemma rtc_time64_to_tm_spec s :
  0 <= s ->
  calendar_ok (rtc_time64_to_tm s) /\ rtc_tm_to_time64 (rtc_time64_to_tm s) = s.
Proof.
  intros Hs. unfold rtc_time64_to_tm.
  rewrite (Z.quot_div_nonneg s 86400), (Z.rem_mod_nonneg s 86400) by lia.
  set (D := s / 86400). set (secs := s mod 86400).
  assert (HD : 0 <= D) by (apply Z.div_pos; lia).
  assert (Hq : 0 <= D / 365) by (apply Z.div_pos; lia).
  assert (Hsecs : 0 <= secs < 86400) by (apply Z.mod_pos_bound; lia).
  rewrite (Z.quot_div_nonneg D 365) by lia.
  replace (to_uint secs) with secs
    by (unfold to_uint; change (2 ^ 32) with 4294967296; rewrite Z.mod_small; lia).
  destruct (year_of_days_spec (Z.to_nat (Z.abs (1970 + D / 365 - 1970) + 1))
              (1970 + D / 365) D)
    as (Y & HY & HYr & HYb); try lia.
  { pose proof (days_before_year_mono 1970 (1970 + D / 365 + 1)).
    rewrite days_before_year_1970 in *.
    split; [lia |]. Z.div_mod_to_equations. lia. }
  rewrite HY.
  destruct (month_of_days 11 0 Y (D - days_before_year Y)) as [m d] eqn:Hrun.
  apply month_of_days_spec in Hrun;
    [| pose proof (days_before_year_succ Y); lia].
  destruct Hrun as (Hm & Hd & Hdoy).
  split.
  - unfold calendar_ok; simpl.
    replace (Y - 1900 + 1900) with Y by lia.
    repeat split; try lia; Z.div_mod_to_equations; lia.
  - rewrite rtc_tm_to_time64_days by (simpl; lia).
    unfold day_number; simpl.
    replace (Y - 1900 + 1900) with Y by lia.
    replace (days_before_year Y + days_before_month m Y + (d + 1) - 1) with D by lia.
    subst D secs. Z.div_mod_to_equations. lia.
Qed.

Lemma rtc_tm_to_time64_nonneg tm : calendar_ok tm -> 0 <= rtc_tm_to_time64 tm.
Proof.
  intros Hok.
  pose proof (day_number_year tm Hok) as Hd.
  pose proof (days_before_year_mono 1970 (tm_year tm + 1900)) as Hmono.
  rewrite days_before_year_1970 in Hmono.
  destruct Hok as (Hy & Hm & _ & Hh & Hmi & Hs).
  rewrite rtc_tm_to_time64_days by assumption. lia.
Qed.

(** Converting a calendar date to a timestamp and back gives the date. *)
Lemma rtc_time64_to_tm_of_tm tm :
  calendar_ok tm ->
  rtc_time64_to_tm (rtc_tm_to_time64 tm)
  = with_calendar_of tm (rtc_time64_to_tm (rtc_tm_to_time64 tm)).
Proof.
  intros Hok.
  destruct (rtc_time64_to_tm_spec _ (rtc_tm_to_time64_nonneg tm Hok)) as [Hok' Hback].
  symmetry. apply rtc_tm_to_time64_inj; [exact Hok | exact Hok' |].
  symmetry. exact Hback.
Qed.

(** Every date the sixteen-bit year field can hold has a timestamp far
    below the range of a 64-bit [unsigned long]. *)
Lemma rtc_tm_to_time64_bound tm :
  calendar_ok tm -> tm_year tm + 1900 <= 65535 ->
  0 <= rtc_tm_to_time64 tm < 2 ^ 42.
Proof.
  intros Hok Hyear.
  pose proof (day_number_year tm Hok) as Hd.
  pose proof (days_before_year_mono 1970 (tm_year tm + 1900)) as Hmono.
  rewrite days_before_year_1970 in Hmono.
  assert (Hup : days_before_year (tm_year tm + 1900 + 1) <= 366 * 63566).
  { unfold days_before_year, LEAPS_THRU_END_OF.
    destruct Hok as (Hy & _). Z.div_mod_to_equations. lia. }
  destruct Hok as (Hy & Hm & _ & Hh & Hmi & Hs).
  rewrite rtc_tm_to_time64_days by assumption.
  change (2 ^ 42) with 4398046511104. lia.
Qed.

Lemma to_s64_to_ulong x : - 2 ^ 63 <= x < 2 ^ 63 -> to_s64 (to_ulong x) = x.
Proof.
  intros Hx. unfold to_s64, to_ulong, BITS_PER_LONG.
  change (2 ^ 63) with 9223372036854775808 in *.
  change (2 ^ 64) with 18446744073709551616.
  Z.div_mod_to_equations. lia.
Qed.

Lemma to_ulong_succ x : to_ulong (to_ulong x + 1) = to_ulong (x + 1).
Proof. unfold to_ulong. apply Zplus_mod_idemp_l. Qed.

Lemma to_ulong_pred x : to_ulong (to_ulong x - 1) = to_ulong (x - 1).
Proof. unfold to_ulong. apply Zminus_mod_idemp_l. Qed.

(** Either adjustment moves the timestamp by exactly one second. *)
Lemma mca_rtc_adjust_alarm_time_shift alrm (inc : bool) :
  - 2 ^ 63 <= rtc_tm_to_time64 (time alrm) + (if inc then 1 else -1) < 2 ^ 63 ->
  time (mca_rtc_adjust_alarm_time alrm inc)
  = rtc_time64_to_tm (rtc_tm_to_time64 (time alrm) + (if inc then 1 else -1)).
Proof.
  intros Hrange. unfold mca_rtc_adjust_alarm_time. cbn [time].
  destruct inc.
  - rewrite to_ulong_succ, to_s64_to_ulong by lia. reflexivity.
  - rewrite to_ulong_pred, to_s64_to_ulong by lia. reflexivity.
Qed.

(** The alarm time moved one second back is again a time the hardware
    can hold, one second earlier on the linear scale. *)
Lemma mca_rtc_adjust_alarm_time_down alrm :
  rtc_valid_tm (time alrm) = 0 -> tm_year (time alrm) + 1900 <= 65535 ->
  0 < rtc_tm_to_time64 (time alrm) ->
  in_hw_range (time (mca_rtc_adjust_alarm_time alrm false))
  /\ rtc_tm_to_time64 (time (mca_rtc_adjust_alarm_time alrm false))
     = rtc_tm_to_time64 (time alrm) - 1.
Proof.
  intros Hvalid Hyear Hafter. apply rtc_valid_tm_calendar_ok in Hvalid.
  pose proof (rtc_tm_to_time64_bound _ Hvalid Hyear) as Hb.
  assert (H42 : 2 ^ 42 < 2 ^ 63) by (apply Z.pow_lt_mono_r; lia).
  rewrite mca_rtc_adjust_alarm_time_shift by lia.
  replace (rtc_tm_to_time64 (time alrm) + -1) with (rtc_tm_to_time64 (time alrm) - 1)
    by lia.
  split; [| apply rtc_time64_to_tm_spec; lia].
  - destruct (rtc_time64_to_tm_spec (rtc_tm_to_time64 (time alrm) - 1)) as [Hok Hback];
      [lia |].
    set (hw := rtc_time64_to_tm (rtc_tm_to_time64 (time alrm) - 1)) in *.
    pose proof (day_number_year hw Hok) as Hdhw.
    pose proof (day_number_year (time alrm) Hvalid) as Hd.
    pose proof (rtc_month_days_pos (tm_mon hw) (tm_year hw + 1900)) as Hmd.
    assert (Hyhw : tm_year hw + 1900 <= tm_year (time alrm) + 1900).
    { destruct (Z.le_gt_cases (tm_year hw + 1900) (tm_year (time alrm) + 1900))
        as [Hle | Hgt]; [exact Hle | exfalso].
      pose proof (days_before_year_mono (tm_year (time alrm) + 1900 + 1)
                    (tm_year hw + 1900)) as Hmono.
      destruct Hok as (_ & Hm1 & _ & Hh1 & Hmi1 & Hs1).
      destruct Hvalid as (_ & Hm2 & _ & Hh2 & Hmi2 & Hs2).
      rewrite rtc_tm_to_time64_days in Hback by assumption.
      rewrite (rtc_tm_to_time64_days (time alrm)) in Hback by assumption.
      lia. }
    destruct Hok as (Hy1 & Hm1 & Hd1 & Hh1 & Hmi1 & Hs1).
    unfold in_hw_range. lia.
Qed.

(** C3, amended. For every valid alarm time after 1970-01-01 00:00:00
    that the hardware can hold, the adjustment to the hardware (one
    second back, through the linear timestamp) followed by the adjustment
    from the hardware (one second forward) gives the calendar time back,
    on a month or year boundary as anywhere else; the [enabled] and
    [pending] members are not touched. *)
Theorem mca_rtc_adjust_alarm_time_roundtrip alrm :
  rtc_valid_tm (time alrm) = 0 ->
  tm_year (time alrm) + 1900 <= 65535 ->
  0 < rtc_tm_to_time64 (time alrm) ->
  let back := mca_rtc_adjust_alarm_time (mca_rtc_adjust_alarm_time alrm false) true in
  time back = with_calendar_of (time alrm) (time back)
  /\ enabled back = enabled alrm /\ pending back = pending alrm.
Proof.
  intros Hvalid Hyear Hafter back.
  apply rtc_valid_tm_calendar_ok in Hvalid.
  pose proof (rtc_tm_to_time64_bound _ Hvalid Hyear) as Hb.
  assert (H42 : 2 ^ 42 < 2 ^ 63) by (apply Z.pow_lt_mono_r; lia).
  assert (Hback : time back = rtc_time64_to_tm (rtc_tm_to_time64 (time alrm))).
  { subst back.
    assert (Hdown : rtc_tm_to_time64 (time (mca_rtc_adjust_alarm_time alrm false))
                    = rtc_tm_to_time64 (time alrm) - 1).
    { rewrite mca_rtc_adjust_alarm_time_shift by lia.
      destruct (rtc_time64_to_tm_spec (rtc_tm_to_time64 (time alrm) + -1)) as [_ Hspec];
        [lia |].
      rewrite Hspec. lia. }
    rewrite mca_rtc_adjust_alarm_time_shift by (rewrite Hdown; lia).
    rewrite Hdown. f_equal. lia. }
  split; [| split; reflexivity].
  rewrite Hback. apply rtc_time64_to_tm_of_tm. exact Hvalid.
Qed.

(** C3 as it is stated fails at 1970-01-01 00:00:00, a valid alarm time
    with timestamp 0: the decrement wraps the [unsigned long], the
    adjustment to the hardware gives 1970-01-01 with hour 1193046,
    minute 28 and second 15, and the adjustment back gives
    2106-02-07 06:28:16 instead of the alarm time. *)
Lemma mca_rtc_adjust_alarm_time_roundtrip_epoch :
  let alrm := {| enabled := 1; pending := 0; time := epoch_1970 |} in
  let hw := mca_rtc_adjust_alarm_time alrm false in
  let back := mca_rtc_adjust_alarm_time hw true in
  rtc_valid_tm (time alrm) = 0
  /\ rtc_tm_to_time64 (time alrm) = 0
  /\ time hw
     = {| tm_sec := 15; tm_min := 28; tm_hour := 1193046; tm_mday := 1; tm_mon := 0;
          tm_year := 70; tm_wday := 4; tm_yday := 1; tm_isdst := 0 |}
  /\ time back
     = {| tm_sec := 16; tm_min := 28; tm_hour := 6; tm_mday := 7; tm_mon := 1;
          tm_year := 206; tm_wday := 0; tm_yday := 38; tm_isdst := 0 |}
  /\ (tm_year (time back) =? tm_year (time alrm)) = false.
Proof. vm_compute. repeat split; reflexivity. Qed.

(** ** The transport *)

Lemma merge_bits_frame orig mask val n :
  Z.testbit mask n = false ->
  Z.testbit (merge_bits orig mask val) n = Z.testbit orig n.
Proof.
  intros Hmask. unfold merge_bits.
  destruct (Z.neg_nonneg_cases n) as [Hn | Hn].
  - rewrite !Z.testbit_neg_r by lia. reflexivity.
  - rewrite Z.lor_spec, !Z.land_spec, Z.lnot_spec, Hmask by lia.
    simpl. rewrite andb_true_r, andb_false_r, orb_false_r. reflexivity.
Qed.

Lemma merge_bits_mask orig mask val :
  Z.land (merge_bits orig mask val) mask = Z.land val mask.
Proof.
  unfold merge_bits. apply Z.bits_inj'. intros n Hn.
  rewrite !Z.land_spec, Z.lor_spec, !Z.land_spec, Z.lnot_spec by lia.
  destruct (Z.testbit orig n), (Z.testbit mask n), (Z.testbit val n); reflexivity.
Qed.

Lemma reg_val_after_update reg mask val r a :
  reg_val (regs_after_update reg mask val r) a
  = if decide (a = reg) then merge_bits (reg_val r reg) mask val else reg_val r a.
Proof.
  unfold regs_after_update.
  destruct (Z.eqb_spec (merge_bits (reg_val r reg) mask val) (reg_val r reg)) as [Heq | Hne].
  - destruct (decide (a = reg)) as [-> |]; [symmetry; exact Heq | reflexivity].
  - unfold reg_val at 1. destruct (decide (a = reg)) as [-> | Hneq].
    + rewrite lookup_insert_eq. reflexivity.
    + rewrite lookup_insert_ne by congruence. reflexivity.
Qed.

Lemma lookup_after_update reg mask val (r : gmap Z Z) a :
  a <> reg -> regs_after_update reg mask val r !! a = r !! a.
Proof.
  intros Hne. unfold regs_after_update.
  destruct (_ =? _); [reflexivity |]. apply lookup_insert_ne. congruence.
Qed.

(** One [regmap_update_bits] on the device, in full. *)
Lemma on_bus_update_bits reg mask val w :
  on_bus (regmap_update_bits reg mask val) w
  = (errno_of (next_outcome (bus w)),
     {| rtc := rtc w;
        bus := {| regs := match next_outcome (bus w) with
                          | Some _ => regs (bus w)
                          | None => regs_after_update reg mask val (regs (bus w))
                          end;
                  script := tail (script (bus w));
                  xlog := xlog (bus w) ++ [XUpdateBits reg mask val] |};
        may_wakeup := may_wakeup w; dmesg := dmesg w; notified := notified w;
        umem := umem w |}).
Proof.
  unfold on_bus, regmap_update_bits, xfer_begin, regs_after_update, set_regs.
  destruct (next_outcome (bus w)); cbn [regs script xlog errno_of].
  - reflexivity.
  - destruct (_ =? _); reflexivity.
Qed.

Lemma errno_of_zero o :
  (errno_of o =? 0) = match o with Some _ => false | None => true end.
Proof. destruct o; reflexivity. Qed.

Lemma errno_of_neg o :
  (errno_of o <? 0) = match o with Some _ => true | None => false end.
Proof. destruct o; reflexivity. Qed.

Lemma on_bus_bulk_write reg bytes w :
  on_bus (regmap_bulk_write reg bytes) w
  = (errno_of (next_outcome (bus w)),
     {| rtc := rtc w;
        bus := {| regs := match next_outcome (bus w) with
                          | Some _ => regs (bus w)
                          | None => store_bytes reg bytes (regs (bus w))
                          end;
                  script := tail (script (bus w));
                  xlog := xlog (bus w) ++ [XBulkWrite reg bytes] |};
        may_wakeup := may_wakeup w; dmesg := dmesg w; notified := notified w;
        umem := umem w |}).
Proof.
  unfold on_bus, regmap_bulk_write, xfer_begin, set_regs.
  destruct (next_outcome (bus w)); reflexivity.
Qed.

Lemma store_bytes_below bytes : forall reg (r : gmap Z Z) a,
  a < reg -> store_bytes reg bytes r !! a = r !! a.
Proof.
  induction bytes as [| b bs IH]; intros reg r a Hlt; simpl.
  - reflexivity.
  - rewrite IH by lia. apply lookup_insert_ne. lia.
Qed.

Lemma load_bytes_cons reg n r :
  load_bytes reg (S n) r = reg_val r reg :: load_bytes (reg + 1) n r.
Proof.
  unfold load_bytes. cbn [seq fmap list_fmap].
  rewrite Z.add_0_r. f_equal.
  rewrite <- fmap_S_seq, <- list_fmap_compose.
  apply list_fmap_ext. intros i k _. simpl. f_equal. lia.
Qed.

(** Reading a block back gives the bytes that were written to it. *)
Lemma load_store_bytes bytes : forall reg r,
  load_bytes reg (length bytes) (store_bytes reg bytes r) = bytes.
Proof.
  induction bytes as [| b bs IH]; intros reg r.
  - reflexivity.
  - cbn [length store_bytes]. rewrite load_bytes_cons, IH. f_equal.
    unfold reg_val. rewrite store_bytes_below by lia.
    rewrite lookup_insert_eq. reflexivity.
Qed.

Section DriverFacts.
Context `{mca_registers}.

(** C7. [mca_rtc_alarm_irq_enable] changes the [alarm_enabled] flag of
    the driver state only when the read-modify-write of the control
    register succeeds: when the transport fails, the flag (and the
    register file) stay as they were and the error goes to the caller. *)
Theorem mca_rtc_alarm_irq_enable_flag enabled w :
  let '(r, w') := mca_rtc_alarm_irq_enable enabled w in
  match next_outcome (bus w) with
  | Some e =>
      r = Z.neg e
      /\ alarm_enabled (rtc w') = alarm_enabled (rtc w)
      /\ regs (bus w') = regs (bus w)
  | None =>
      r = 0
      /\ alarm_enabled (rtc w') = negb (enabled =? 0)
      /\ Z.land (reg_val (regs (bus w')) MCA_RTC_CONTROL) MCA_RTC_ALARM_EN
         = (if negb (enabled =? 0) then MCA_RTC_ALARM_EN else 0)
  end.
Proof.
  unfold mca_rtc_alarm_irq_enable, mca_rtc_start_alarm, mca_rtc_stop_alarm.
  destruct (enabled =? 0); cbn [negb]; unfold bind;
    rewrite on_bus_update_bits, errno_of_zero;
    destruct (next_outcome (bus w)); cbn [negb errno_of]; run_driver.
  all: repeat split; try reflexivity.
  all: rewrite reg_val_after_update, decide_True by reflexivity.
  all: rewrite merge_bits_mask.
  - apply Z.land_0_l.
  - apply Z.land_diag.
Qed.

Lemma CLOCK_DATA_LEN_eq : CLOCK_DATA_LEN = 7%nat.
Proof.
  unfold CLOCK_DATA_LEN, MCA_RTC_COUNT_SEC.
  replace (MCA_RTC_COUNT_YEAR_L + 6 - MCA_RTC_COUNT_YEAR_L + 1) with 7 by lia.
  reflexivity.
Qed.

Lemma ALARM_DATA_LEN_eq : ALARM_DATA_LEN = 7%nat.
Proof.
  unfold ALARM_DATA_LEN, MCA_RTC_ALARM_SEC.
  replace (MCA_RTC_ALARM_YEAR_L + 6 - MCA_RTC_ALARM_YEAR_L + 1) with 7 by lia.
  reflexivity.
Qed.

Lemma alarm_block_length tm :
  length (take ALARM_DATA_LEN (mca_tm_to_data tm zeroed_data)) = ALARM_DATA_LEN.
Proof.
  rewrite length_take, mca_tm_to_data_length. unfold zeroed_data.
  rewrite length_replicate, CLOCK_DATA_LEN_eq, ALARM_DATA_LEN_eq. reflexivity.
Qed.

(** The alarm block as [mca_rtc_set_alarm] writes it decodes to the time
    that was encoded. *)
Lemma alarm_block_decodes tm dst :
  masks_cover_fields -> in_hw_range tm ->
  mca_data_to_tm (take ALARM_DATA_LEN (mca_tm_to_data tm zeroed_data)) dst
  = with_calendar_of tm dst.
Proof.
  intros Hmasks Hrange.
  rewrite take_ge
    by (rewrite mca_tm_to_data_length; unfold zeroed_data;
        rewrite length_replicate, CLOCK_DATA_LEN_eq, ALARM_DATA_LEN_eq; lia).
  apply mca_codec_roundtrip; [exact Hmasks | exact Hrange |].
  unfold zeroed_data. rewrite length_replicate. apply CLOCK_DATA_LEN_eq.
Qed.

(** C5. The phases of [mca_rtc_set_alarm] come in a fixed order: the
    alarm time is moved one second back, encoded and written to the alarm
    block in one bulk transfer, and only then is the enable step run. When
    the bulk write fails, no enable transaction is issued and the error of
    the transport is returned; when the write succeeds and the enable step
    fails, the alarm block already holds the new value and the error of
    the enable step is returned. The time that is encoded is the alarm
    time with its timestamp decremented by one in the [unsigned long]:
    for a valid alarm time after 1970-01-01 00:00:00 that is the calendar
    time one second earlier, and the block written decodes to it. *)
Theorem mca_rtc_set_alarm_phases alrm w :
  let hw := mca_rtc_adjust_alarm_time alrm false in
  let block := take ALARM_DATA_LEN (mca_tm_to_data (time hw) zeroed_data) in
  let write := XBulkWrite MCA_RTC_ALARM_YEAR_L block in
  let enable :=
    XUpdateBits MCA_RTC_CONTROL MCA_RTC_ALARM_EN
      (if negb (enabled alrm =? 0) then MCA_RTC_ALARM_EN else 0) in
  let '(r, alrm', w') := mca_rtc_set_alarm alrm w in
  alrm' = hw /\
  time hw = rtc_time64_to_tm (to_s64 (to_ulong (rtc_tm_to_time64 (time alrm) - 1))) /\
  (rtc_valid_tm (time alrm) = 0 -> tm_year (time alrm) + 1900 <= 65535 ->
   0 < rtc_tm_to_time64 (time alrm) ->
   rtc_tm_to_time64 (time hw) = rtc_tm_to_time64 (time alrm) - 1
   /\ in_hw_range (time hw)
   /\ (masks_cover_fields ->
       forall dst, mca_data_to_tm block dst = with_calendar_of (time hw) dst)) /\
  match script (bus w) with
  | Some e :: _ =>
      r = Z.neg e
      /\ xlog (bus w') = xlog (bus w) ++ [write]
      /\ regs (bus w') = regs (bus w)
      /\ alarm_enabled (rtc w') = alarm_enabled (rtc w)
  | None :: Some e :: _ =>
      r = Z.neg e
      /\ xlog (bus w') = xlog (bus w) ++ [write; enable]
      /\ regs (bus w') = store_bytes MCA_RTC_ALARM_YEAR_L block (regs (bus w))
      /\ load_bytes MCA_RTC_ALARM_YEAR_L ALARM_DATA_LEN (regs (bus w')) = block
      /\ alarm_enabled (rtc w') = alarm_enabled (rtc w)
  | _ =>
      r = 0
      /\ xlog (bus w') = xlog (bus w) ++ [write; enable]
      /\ regs (bus w')
         = regs_after_update MCA_RTC_CONTROL MCA_RTC_ALARM_EN
             (if negb (enabled alrm =? 0) then MCA_RTC_ALARM_EN else 0)
             (store_bytes MCA_RTC_ALARM_YEAR_L block (regs (bus w)))
      /\ alarm_enabled (rtc w') = negb (enabled alrm =? 0)
  end.
Proof.
  intros hw block write enable.
  assert (Hsub : time hw
                 = rtc_time64_to_tm
                     (to_s64 (to_ulong (rtc_tm_to_time64 (time alrm) - 1)))).
  { unfold hw, mca_rtc_adjust_alarm_time. cbn [time].
    rewrite to_ulong_pred. reflexivity. }
  assert (Hcal : rtc_valid_tm (time alrm) = 0 -> tm_year (time alrm) + 1900 <= 65535 ->
                 0 < rtc_tm_to_time64 (time alrm) ->
                 rtc_tm_to_time64 (time hw) = rtc_tm_to_time64 (time alrm) - 1
                 /\ in_hw_range (time hw)
                 /\ (masks_cover_fields ->
                     forall dst,
                       mca_data_to_tm block dst = with_calendar_of (time hw) dst)).
  { intros Hvalid Hyear Hafter.
    destruct (mca_rtc_adjust_alarm_time_down alrm Hvalid Hyear Hafter) as [Hrange Hdown].
    split; [exact Hdown |]. split; [exact Hrange |].
    intros Hmasks dst. apply alarm_block_decodes; assumption. }
  assert (Hphases :
            let '(r, alrm', w') := mca_rtc_set_alarm alrm w in
            alrm' = hw /\
            match script (bus w) with
            | Some e :: _ =>
                r = Z.neg e
                /\ xlog (bus w') = xlog (bus w) ++ [write]
                /\ regs (bus w') = regs (bus w)
                /\ alarm_enabled (rtc w') = alarm_enabled (rtc w)
            | None :: Some e :: _ =>
                r = Z.neg e
                /\ xlog (bus w') = xlog (bus w) ++ [write; enable]
                /\ regs (bus w') = store_bytes MCA_RTC_ALARM_YEAR_L block (regs (bus w))
                /\ load_bytes MCA_RTC_ALARM_YEAR_L ALARM_DATA_LEN (regs (bus w')) = block
                /\ alarm_enabled (rtc w') = alarm_enabled (rtc w)
            | _ =>
                r = 0
                /\ xlog (bus w') = xlog (bus w) ++ [write; enable]
                /\ regs (bus w')
                   = regs_after_update MCA_RTC_CONTROL MCA_RTC_ALARM_EN
                       (if negb (enabled alrm =? 0) then MCA_RTC_ALARM_EN else 0)
                       (store_bytes MCA_RTC_ALARM_YEAR_L block (regs (bus w)))
                /\ alarm_enabled (rtc w') = negb (enabled alrm =? 0)
            end).
  { clear Hsub Hcal.
    unfold mca_rtc_set_alarm. fold hw. fold block.
    unfold bind at 1. rewrite on_bus_bulk_write, errno_of_neg.
    assert (Hen : enabled hw = enabled alrm) by reflexivity.
    assert (Hlen : length block = ALARM_DATA_LEN) by apply alarm_block_length.
    unfold next_outcome.
    destruct (script (bus w)) as [| [e |] rest]; cbn [head default from_option id tail].
    - (* no fault scheduled at all *)
      unfold mca_rtc_alarm_irq_enable, mca_rtc_start_alarm, mca_rtc_stop_alarm.
      rewrite Hen. destruct (enabled alrm =? 0); cbn [negb]; run_driver;
        rewrite on_bus_update_bits, errno_of_zero; unfold next_outcome;
        run_driver; cbn [head default from_option id tail errno_of]; run_driver;
        rewrite <- app_assoc; repeat split; reflexivity.
    - (* the bulk write fails *)
      run_driver. repeat split; reflexivity.
    - (* the bulk write succeeds *)
      unfold mca_rtc_alarm_irq_enable, mca_rtc_start_alarm, mca_rtc_stop_alarm.
      rewrite Hen. destruct (enabled alrm =? 0); cbn [negb]; run_driver;
        rewrite on_bus_update_bits, errno_of_zero; unfold next_outcome;
        run_driver; destruct rest as [| [e |] rest'];
        cbn [head default from_option id tail errno_of]; run_driver;
        rewrite <- app_assoc; repeat split; try reflexivity.
      all: rewrite <- Hlen; apply load_store_bytes. }
  destruct (mca_rtc_set_alarm alrm w) as [[r alrm'] w'].
  destruct Hphases as [Heq Hphases].
  split; [exact Heq |]. split; [exact Hsub |]. split; [exact Hcal | exact Hphases].
Qed.

(** [mca_rtc_read_alarm] never writes the [enabled] member of the alarm
    it fills in: whatever the control register holds, the caller finds
    the value it passed in. *)
Lemma mca_rtc_read_alarm_keeps_enabled alrm w :
  enabled (snd (fst (mca_rtc_read_alarm alrm w))) = enabled alrm.
Proof.
  unfold mca_rtc_read_alarm, on_bus, regmap_write, regmap_bulk_read, regmap_read,
    xfer_begin.
  run_driver.
  repeat (case_match; run_driver; simplify_eq); reflexivity.
Qed.

(** C8. The power hooks. [mca_rtc_suspend] issues the read-modify-write
    that clears the alarm-enable bit exactly when the device may not wake
    the system and the driver's armed flag is set; [mca_rtc_resume] issues
    the one that sets it under the same condition. Neither hook touches
    the driver state, so the armed flag stays as it was, and both return 0
    whether the transport succeeds or not: a failure is only logged. *)
Theorem mca_rtc_suspend_resume_mute w :
  let muted := negb (may_wakeup w) && alarm_enabled (rtc w) in
  let ok := match next_outcome (bus w) with None => true | Some _ => false end in
  (let '(r, w') := mca_rtc_suspend w in
   r = 0 /\ rtc w' = rtc w /\ may_wakeup w' = may_wakeup w
   /\ xlog (bus w')
      = xlog (bus w)
        ++ (if muted then [XUpdateBits MCA_RTC_CONTROL MCA_RTC_ALARM_EN 0] else [])
   /\ Z.land (reg_val (regs (bus w')) MCA_RTC_CONTROL) MCA_RTC_ALARM_EN
      = (if muted && ok then 0
         else Z.land (reg_val (regs (bus w)) MCA_RTC_CONTROL) MCA_RTC_ALARM_EN)
   /\ dmesg w'
      = dmesg w
        ++ (if muted && negb ok then [DevErr "Failed to disable RTC Alarm\n" []] else []))
  /\
  (let '(r, w') := mca_rtc_resume w in
   r = 0 /\ rtc w' = rtc w /\ may_wakeup w' = may_wakeup w
   /\ xlog (bus w')
      = xlog (bus w)
        ++ (if muted
            then [XUpdateBits MCA_RTC_CONTROL MCA_RTC_ALARM_EN MCA_RTC_ALARM_EN]
            else [])
   /\ Z.land (reg_val (regs (bus w')) MCA_RTC_CONTROL) MCA_RTC_ALARM_EN
      = (if muted && ok then MCA_RTC_ALARM_EN
         else Z.land (reg_val (regs (bus w)) MCA_RTC_CONTROL) MCA_RTC_ALARM_EN)
   /\ dmesg w'
      = dmesg w
        ++ (if muted && negb ok then [DevErr "Failed to restart RTC Alarm\n" []] else []))
  /\
  (let ws := snd (mca_rtc_suspend w) in
   let wr := snd (mca_rtc_resume ws) in
   alarm_enabled (rtc ws) = alarm_enabled (rtc w)
   /\ alarm_enabled (rtc wr) = alarm_enabled (rtc w)
   /\ xlog (bus wr)
      = xlog (bus w)
        ++ (if muted
            then [XUpdateBits MCA_RTC_CONTROL MCA_RTC_ALARM_EN 0;
                  XUpdateBits MCA_RTC_CONTROL MCA_RTC_ALARM_EN MCA_RTC_ALARM_EN]
            else [])).
Proof.
  intros muted ok. subst muted ok.
  destruct w as [[ia ih ip armed prep] [r sc lg] wake dm nt um].
  unfold mca_rtc_suspend, mca_rtc_resume, mca_rtc_stop_alarm, mca_rtc_start_alarm.
  destruct wake, armed; run_driver; cbn [negb andb]; run_driver;
    rewrite ?app_nil_r; try (repeat split; reflexivity).
  destruct sc as [| [e |] [| [e' |] rest]];
    repeat first
      [ rewrite on_bus_update_bits
      | rewrite errno_of_neg
      | progress unfold next_outcome
      | progress cbn [head default from_option id tail negb andb]
      | progress run_driver ];
    rewrite ?app_nil_r, <- ?app_assoc; repeat split; try reflexivity.
  all: rewrite reg_val_after_update, decide_True, merge_bits_mask by reflexivity.
  all: first [apply Z.land_0_l | apply Z.land_diag].
Qed.

(** C9. Each interrupt handler hands exactly one notification to the
    RTC framework, of the kind that belongs to its interrupt line (alarm,
    update, periodic), and returns [IRQ_HANDLED]; the notification calls
    return [void], so nothing about their outcome reaches the return
    value. Nothing else of the device changes. *)
Theorem irq_handler_notifies_once src irq w :
  let '(r, w') := irq_handler src irq w in
  r = IRQ_HANDLED
  /\ notified w'
     = notified w
       ++ [match src with
           | IrqAlarm => RtcUpdateIrq 1 (Z.lor RTC_IRQF RTC_AF)
           | Irq1Hz => RtcHandleLegacyIrq 1 RTC_UF
           | IrqPeriodic => RtcHandleLegacyIrq 1 RTC_PF
           end]
  /\ Z.land (notify_events (List.last (notified w') (RtcUpdateIrq 0 0))) (event_flag src)
     = event_flag src
  /\ length (notified w') = S (length (notified w))
  /\ rtc w' = rtc w /\ bus w' = bus w /\ dmesg w' = dmesg w.
Proof.
  destruct src; unfold irq_handler, mca_alarm_event, mca_1HZ_event, mca_periodic_irq_event;
    run_driver; rewrite last_last, length_app, Nat.add_comm;
    repeat split; reflexivity.
Qed.

(** What an entry point does to the bus: one [regmap_update_bits] on the
    control register with the bit as the mask, or nothing at all. *)
Lemma run_toggle_bus op w :
  bus (run_toggle op w)
  = match toggle_request op with
    | Some on =>
        bus (snd (on_bus (regmap_update_bits MCA_RTC_CONTROL (toggle_bit op)
                            (if on then toggle_bit op else 0)) w))
    | None => bus w
    end.
Proof.
  destruct op as [| | enabled | | | | | buf count];
    cbn [run_toggle toggle_request toggle_bit].
  - reflexivity.
  - reflexivity.
  - unfold mca_rtc_alarm_irq_enable, mca_rtc_start_alarm, mca_rtc_stop_alarm.
    destruct (enabled =? 0); cbn [negb]; run_driver;
      rewrite on_bus_update_bits, errno_of_zero;
      destruct (next_outcome (bus w)); reflexivity.
  - unfold mca_rtc_ioctl. change (RTC_MCA_UIE_ON =? RTC_MCA_UIE_ON) with true.
    cbn [orb]. run_driver. rewrite on_bus_update_bits, errno_of_zero.
    destruct (next_outcome (bus w)); reflexivity.
  - unfold mca_rtc_ioctl. change (RTC_MCA_UIE_OFF =? RTC_MCA_UIE_ON) with false.
    change (RTC_MCA_UIE_OFF =? RTC_MCA_UIE_OFF) with true.
    cbn [orb]. run_driver. rewrite on_bus_update_bits, errno_of_zero.
    destruct (next_outcome (bus w)); reflexivity.
  - unfold mca_rtc_ioctl. change (RTC_MCA_PIE_ON =? RTC_MCA_UIE_ON) with false.
    change (RTC_MCA_PIE_ON =? RTC_MCA_UIE_OFF) with false.
    change (RTC_MCA_PIE_ON =? RTC_MCA_PIE_ON) with true.
    cbn [orb]. run_driver. rewrite on_bus_update_bits, errno_of_zero.
    destruct (next_outcome (bus w)); reflexivity.
  - unfold mca_rtc_ioctl. change (RTC_MCA_PIE_OFF =? RTC_MCA_UIE_ON) with false.
    change (RTC_MCA_PIE_OFF =? RTC_MCA_UIE_OFF) with false.
    change (RTC_MCA_PIE_OFF =? RTC_MCA_PIE_ON) with false.
    change (RTC_MCA_PIE_OFF =? RTC_MCA_PIE_OFF) with true.
    cbn [orb]. run_driver. rewrite on_bus_update_bits, errno_of_zero.
    destruct (next_outcome (bus w)); reflexivity.
  - unfold rtc_irq_pin_enable_store.
    destruct (parse_enable buf) as [enable |]; [| reflexivity].
    run_driver. rewrite on_bus_update_bits, errno_of_zero.
    destruct (next_outcome (bus w)); reflexivity.
Qed.

(** C10. Every access of a bit-toggle entry point to the control
    register (alarm start and stop, [alarm_irq_enable], the [UIE] and
    [PIE] ioctls, the irq-pin-enable attribute) is one masked
    read-modify-write whose mask is the targeted bit: no register other
    than the control register changes, every bit of the control register
    outside the mask keeps its value, and when the transaction succeeds
    the bit holds what was asked for. *)
Theorem control_toggle_frame op w :
  let w' := run_toggle op w in
  xlog (bus w')
  = xlog (bus w)
    ++ match toggle_request op with
       | Some on =>
           [XUpdateBits MCA_RTC_CONTROL (toggle_bit op) (if on then toggle_bit op else 0)]
       | None => []
       end
  /\ (forall reg, reg <> MCA_RTC_CONTROL -> regs (bus w') !! reg = regs (bus w) !! reg)
  /\ (forall n, Z.testbit (toggle_bit op) n = false ->
               Z.testbit (reg_val (regs (bus w')) MCA_RTC_CONTROL) n
               = Z.testbit (reg_val (regs (bus w)) MCA_RTC_CONTROL) n)
  /\ match toggle_request op, next_outcome (bus w) with
     | Some on, None =>
         Z.land (reg_val (regs (bus w')) MCA_RTC_CONTROL) (toggle_bit op)
         = (if on then toggle_bit op else 0)
     | _, _ => regs (bus w') = regs (bus w)
     end.
Proof.
  intros w'. subst w'. rewrite run_toggle_bus.
  destruct (toggle_request op) as [on |].
  - rewrite on_bus_update_bits. world_simpl.
    destruct (next_outcome (bus w)).
    + repeat split; reflexivity.
    + split; [reflexivity |]. split; [| split].
      * intros reg Hreg. apply lookup_after_update. exact Hreg.
      * intros n Hn. rewrite reg_val_after_update, decide_True by reflexivity.
        apply merge_bits_frame. exact Hn.
      * rewrite reg_val_after_update, decide_True, merge_bits_mask by reflexivity.
        destruct on; [apply Z.land_diag | apply Z.land_0_l].
  - rewrite app_nil_r. destruct (next_outcome (bus w)); repeat split; reflexivity.
Qed.

End DriverFacts.

(** ** Writing a value and reading it back *)

Lemma on_bus_write reg val w :
  on_bus (regmap_write reg val) w
  = (errno_of (next_outcome (bus w)),
     {| rtc := rtc w;
        bus := {| regs := match next_outcome (bus w) with
                          | Some _ => regs (bus w)
                          | None => <[reg := val]> (regs (bus w))
                          end;
                  script := tail (script (bus w));
                  xlog := xlog (bus w) ++ [XWrite reg val] |};
        may_wakeup := may_wakeup w; dmesg := dmesg w; notified := notified w;
        umem := umem w |}).
Proof.
  unfold on_bus, regmap_write, xfer_begin, set_regs.
  destruct (next_outcome (bus w)); reflexivity.
Qed.

Lemma on_bus_bulk_read reg buf len w :
  on_bus (regmap_bulk_read reg buf len) w
  = (errno_of (next_outcome (bus w)),
     match next_outcome (bus w) with
     | Some _ => buf
     | None => load_bytes reg len (regs (bus w)) ++ drop len buf
     end,
     {| rtc := rtc w;
        bus := {| regs := regs (bus w);
                  script := tail (script (bus w));
                  xlog := xlog (bus w) ++ [XBulkRead reg len] |};
        may_wakeup := may_wakeup w; dmesg := dmesg w; notified := notified w;
        umem := umem w |}).
Proof.
  unfold on_bus, regmap_bulk_read, xfer_begin.
  destruct (next_outcome (bus w)); reflexivity.
Qed.

Lemma on_bus_read reg val w :
  on_bus (regmap_read reg val) w
  = (errno_of (next_outcome (bus w)),
     match next_outcome (bus w) with
     | Some _ => val
     | None => reg_val (regs (bus w)) reg
     end,
     {| rtc := rtc w;
        bus := {| regs := regs (bus w);
                  script := tail (script (bus w));
                  xlog := xlog (bus w) ++ [XRead reg] |};
        may_wakeup := may_wakeup w; dmesg := dmesg w; notified := notified w;
        umem := umem w |}).
Proof.
  unfold on_bus, regmap_read, xfer_begin.
  destruct (next_outcome (bus w)); reflexivity.
Qed.

(** A block read sees only the registers of the block. *)
Lemma load_bytes_ext reg len (r1 r2 : gmap Z Z) :
  (forall a, reg <= a < reg + Z.of_nat len -> r1 !! a = r2 !! a) ->
  load_bytes reg len r1 = load_bytes reg len r2.
Proof.
  intros Hsame. unfold load_bytes. apply list_fmap_ext.
  intros i k Hk. apply lookup_seq in Hk as [-> Hlt].
  unfold reg_val. rewrite Hsame by lia. reflexivity.
Qed.

Lemma load_bytes_insert reg len (r : gmap Z Z) a v :
  a < reg \/ reg + Z.of_nat len <= a ->
  load_bytes reg len (<[a := v]> r) = load_bytes reg len r.
Proof.
  intros Hout. apply load_bytes_ext. intros b Hb.
  apply lookup_insert_ne. lia.
Qed.

Lemma load_bytes_after_update reg len r a mask val :
  a < reg \/ reg + Z.of_nat len <= a ->
  load_bytes reg len (regs_after_update a mask val r) = load_bytes reg len r.
Proof.
  intros Hout. apply load_bytes_ext. intros b Hb.
  apply lookup_after_update. lia.
Qed.

Section Scenarios.
Context `{mca_registers}.

Lemma clock_block_length tm :
  length (take CLOCK_DATA_LEN (mca_tm_to_data tm zeroed_data)) = CLOCK_DATA_LEN.
Proof.
  rewrite length_take, mca_tm_to_data_length. unfold zeroed_data.
  rewrite length_replicate, CLOCK_DATA_LEN_eq. reflexivity.
Qed.

Lemma take_block tm n :
  n = 7%nat -> take n (mca_tm_to_data tm zeroed_data) = mca_tm_to_data tm (replicate 7 0).
Proof.
  intros ->. unfold zeroed_data. rewrite CLOCK_DATA_LEN_eq.
  apply take_ge. rewrite mca_tm_to_data_length, length_replicate. lia.
Qed.

(** Setting the clock and reading it back, with no transport fault in
    between and a clock that has not ticked. *)
Theorem mca_rtc_set_time_read_time tm dst w :
  masks_cover_fields -> in_hw_range tm ->
  outside_block MCA_RTC_PREPARE_DATETIME MCA_RTC_COUNT_YEAR_L ->
  script (bus w) = [] ->
  let '(r1, w1) := mca_rtc_set_time tm w in
  let '(r2, got, w2) := mca_rtc_read_time dst w1 in
  r1 = 0 /\ got = with_calendar_of tm dst /\ r2 = rtc_valid_tm got.
Proof.
  intros Hmasks Hrange Hprep Hscript.
  unfold mca_rtc_set_time, mca_rtc_read_time. run_driver.
  rewrite on_bus_bulk_write, errno_of_neg. unfold next_outcome. rewrite Hscript.
  cbn [head default from_option id tail errno_of]. run_driver.
  assert (Hload : forall r v,
            load_bytes MCA_RTC_COUNT_YEAR_L CLOCK_DATA_LEN
              (<[MCA_RTC_PREPARE_DATETIME := v]>
                 (store_bytes MCA_RTC_COUNT_YEAR_L
                    (take CLOCK_DATA_LEN (mca_tm_to_data tm zeroed_data)) r))
            = mca_tm_to_data tm (replicate 7 0)).
  { intros r v. rewrite load_bytes_insert
      by (rewrite CLOCK_DATA_LEN_eq; unfold outside_block in Hprep; lia).
    rewrite <- (clock_block_length tm) at 1. rewrite load_store_bytes.
    apply take_block, CLOCK_DATA_LEN_eq. }
  assert (Hload' : forall r,
            load_bytes MCA_RTC_COUNT_YEAR_L CLOCK_DATA_LEN
              (store_bytes MCA_RTC_COUNT_YEAR_L
                 (take CLOCK_DATA_LEN (mca_tm_to_data tm zeroed_data)) r)
            = mca_tm_to_data tm (replicate 7 0)).
  { intros r. rewrite <- (clock_block_length tm) at 1. rewrite load_store_bytes.
    apply take_block, CLOCK_DATA_LEN_eq. }
  assert (Hdrop : drop CLOCK_DATA_LEN zeroed_data = []).
  { unfold zeroed_data. apply drop_ge. rewrite length_replicate. lia. }
  destruct (prepare_enabled (rtc w)); run_driver;
    repeat first
      [ rewrite on_bus_write
      | rewrite on_bus_bulk_read
      | rewrite errno_of_neg
      | rewrite errno_of_zero
      | progress unfold next_outcome
      | progress cbn [head default from_option id tail negb andb errno_of]
      | progress run_driver ];
    rewrite ?Hload, ?Hload', Hdrop, app_nil_r;
    rewrite mca_codec_roundtrip by (assumption || apply length_replicate);
    repeat split; reflexivity.
Qed.


Lemma rtc_tm_to_time64_calendar a b :
  rtc_tm_to_time64 (with_calendar_of a b) = rtc_tm_to_time64 a.
Proof. reflexivity. Qed.

(** [mca_rtc_set_alarm] when no transport fault is scheduled. *)
Lemma mca_rtc_set_alarm_ok alrm w :
  script (bus w) = [] ->
  mca_rtc_set_alarm alrm w
  = (0, mca_rtc_adjust_alarm_time alrm false,
     {| rtc := {| irq_alarm := irq_alarm (rtc w);
                  irq_1HZ := irq_1HZ (rtc w);
                  irq_periodic := irq_periodic (rtc w);
                  alarm_enabled := negb (enabled alrm =? 0);
                  prepare_enabled := prepare_enabled (rtc w) |};
        bus := {| regs := regs_after_update MCA_RTC_CONTROL MCA_RTC_ALARM_EN
                            (if negb (enabled alrm =? 0) then MCA_RTC_ALARM_EN else 0)
                            (store_bytes MCA_RTC_ALARM_YEAR_L
                               (take ALARM_DATA_LEN
                                  (mca_tm_to_data
                                     (time (mca_rtc_adjust_alarm_time alrm false))
                                     zeroed_data))
                               (regs (bus w)));
                  script := [];
                  xlog := (xlog (bus w)
                           ++ [XBulkWrite MCA_RTC_ALARM_YEAR_L
                                 (take ALARM_DATA_LEN
                                    (mca_tm_to_data
                                       (time (mca_rtc_adjust_alarm_time alrm false))
                                       zeroed_data))])
                          ++ [XUpdateBits MCA_RTC_CONTROL MCA_RTC_ALARM_EN
                                (if negb (enabled alrm =? 0)
                                 then MCA_RTC_ALARM_EN else 0)] |};
        may_wakeup := may_wakeup w; dmesg := dmesg w; notified := notified w;
        umem := umem w |}).
Proof.
  intros Hscript.
  unfold mca_rtc_set_alarm, mca_rtc_alarm_irq_enable,
    mca_rtc_start_alarm, mca_rtc_stop_alarm. run_driver.
  change (enabled (mca_rtc_adjust_alarm_time alrm false)) with (enabled alrm).
  rewrite on_bus_bulk_write, errno_of_neg. unfold next_outcome. rewrite Hscript.
  cbn [head default from_option id tail errno_of]. run_driver.
  destruct (enabled alrm =? 0); cbn [negb]; run_driver;
    rewrite on_bus_update_bits, errno_of_zero; unfold next_outcome;
    cbn [head default from_option id tail errno_of]; run_driver; reflexivity.
Qed.


Lemma rtc_tm_to_time64_with_time (dst : rtc_wkalrm) (tm : rtc_time) :
  rtc_tm_to_time64 (time (with_time dst (with_calendar_of tm (time dst))))
  = rtc_tm_to_time64 tm.
Proof. reflexivity. Qed.

Lemma alarm_time_read_back alrm (dst : rtc_wkalrm) :
  masks_cover_fields ->
  rtc_valid_tm (time alrm) = 0 -> tm_year (time alrm) + 1900 <= 65535 ->
  0 < rtc_tm_to_time64 (time alrm) ->
  time (mca_rtc_adjust_alarm_time
          (with_time dst
             (mca_data_to_tm
                (mca_tm_to_data (time (mca_rtc_adjust_alarm_time alrm false))
                   (replicate 7 0))
                (time dst))) true)
  = rtc_time64_to_tm (rtc_tm_to_time64 (time alrm)).
Proof.
  intros Hmasks Hvalid Hyear Hafter.
  destruct (mca_rtc_adjust_alarm_time_down alrm Hvalid Hyear Hafter) as [Hrange Hdown].
  apply rtc_valid_tm_calendar_ok in Hvalid.
  pose proof (rtc_tm_to_time64_bound _ Hvalid Hyear) as Hb.
  assert (H42 : 2 ^ 42 < 2 ^ 63) by (apply Z.pow_lt_mono_r; lia).
  rewrite mca_codec_roundtrip by (assumption || apply length_replicate).
  rewrite mca_rtc_adjust_alarm_time_shift;
    rewrite rtc_tm_to_time64_with_time, Hdown; [f_equal; lia | lia].
Qed.


Lemma time_with_pending a p : time (with_pending a p) = time a.
Proof. reflexivity. Qed.

(** [mca_rtc_read_alarm] when no transport fault is scheduled and the alarm
    block holds [block]. *)
Lemma mca_rtc_read_alarm_ok dst w block :
  script (bus w) = [] ->
  outside_block MCA_RTC_PREPARE_ALARM MCA_RTC_ALARM_YEAR_L ->
  load_bytes MCA_RTC_ALARM_YEAR_L ALARM_DATA_LEN (regs (bus w)) = block ->
  exists p,
    fst (mca_rtc_read_alarm dst w)
    = (0, with_pending
            (mca_rtc_adjust_alarm_time
               (with_time dst (mca_data_to_tm block (time dst))) true) p).
Proof.
  intros Hscript Hprep Hload.
  assert (Hload' : forall v,
            load_bytes MCA_RTC_ALARM_YEAR_L ALARM_DATA_LEN
              (<[MCA_RTC_PREPARE_ALARM := v]> (regs (bus w))) = block).
  { intros v. rewrite load_bytes_insert; [exact Hload |].
    rewrite ALARM_DATA_LEN_eq. unfold outside_block in Hprep. lia. }
  assert (Hdrop : drop ALARM_DATA_LEN zeroed_data = []).
  { unfold zeroed_data. apply drop_ge.
    rewrite length_replicate, CLOCK_DATA_LEN_eq, ALARM_DATA_LEN_eq. lia. }
  unfold mca_rtc_read_alarm. run_driver.
  destruct (prepare_enabled (rtc w)); run_driver;
    repeat first
      [ rewrite on_bus_write
      | rewrite on_bus_bulk_read
      | rewrite on_bus_read
      | rewrite errno_of_neg
      | rewrite errno_of_zero
      | rewrite Hscript
      | progress unfold next_outcome
      | progress cbn [head default from_option id tail negb andb errno_of]
      | progress run_driver ];
    rewrite ?Hload', ?Hload, Hdrop, app_nil_r;
    eexists; reflexivity.
Qed.

(** Setting the alarm and reading it back, with no transport fault in
    between, for an alarm time after 1970-01-01 00:00:00: the caller
    gets the alarm time it set, and the driver state records whether the
    alarm was armed. *)
Theorem mca_rtc_set_alarm_read_alarm alrm dst w :
  masks_cover_fields ->
  rtc_valid_tm (time alrm) = 0 -> tm_year (time alrm) + 1900 <= 65535 ->
  0 < rtc_tm_to_time64 (time alrm) ->
  outside_block MCA_RTC_CONTROL MCA_RTC_ALARM_YEAR_L ->
  outside_block MCA_RTC_PREPARE_ALARM MCA_RTC_ALARM_YEAR_L ->
  script (bus w) = [] ->
  let '(r1, _, w1) := mca_rtc_set_alarm alrm w in
  let '(r2, got, w2) := mca_rtc_read_alarm dst w1 in
  r1 = 0 /\ r2 = 0
  /\ time got = with_calendar_of (time alrm) (time got)
  /\ enabled got = enabled dst
  /\ alarm_enabled (rtc w1) = negb (enabled alrm =? 0).
Proof.
  intros Hmasks Hvalid Hyear Hafter Hctl Hprep Hscript.
  rewrite (mca_rtc_set_alarm_ok alrm w Hscript).
  pose proof (alarm_time_read_back alrm dst Hmasks Hvalid Hyear Hafter) as Htime.
  pose proof (take_block (time (mca_rtc_adjust_alarm_time alrm false)) ALARM_DATA_LEN
                ALARM_DATA_LEN_eq) as Hblock.
  pose proof (alarm_block_length (time (mca_rtc_adjust_alarm_time alrm false))) as Hlen.
  revert Htime Hblock Hlen.
  generalize (mca_tm_to_data (time (mca_rtc_adjust_alarm_time alrm false))
                (replicate 7 0)).
  generalize (take ALARM_DATA_LEN
                (mca_tm_to_data (time (mca_rtc_adjust_alarm_time alrm false))
                   zeroed_data)).
  intros block data Htime -> Hlen.
  match goal with
  | |- context [mca_rtc_read_alarm dst ?w1] =>
      destruct (mca_rtc_read_alarm_ok dst w1 data) as [p Hread];
        [ reflexivity | exact Hprep | | ];
        [ | destruct (mca_rtc_read_alarm dst w1) as [[r2 got] w2] ]
  end.
  - world_simpl.
    rewrite load_bytes_after_update
      by (rewrite ALARM_DATA_LEN_eq; unfold outside_block in Hctl; lia).
    rewrite <- Hlen at 1. apply load_store_bytes.
  - cbn [fst] in Hread. injection Hread as -> ->.
    apply rtc_valid_tm_calendar_ok in Hvalid.
    split; [reflexivity |]. split; [reflexivity |]. split; [| split; reflexivity].
    rewrite !time_with_pending, Htime.
    apply rtc_time64_to_tm_of_tm. exact Hvalid.
Qed.

End Scenarios.

(** ** The driver on a concrete device *)

(** C2. On a freshly probed device, [mca_rtc_set_alarm] for
    2024-03-01 12:00:00 with [enabled = 1] succeeds, stores
    2024-03-01 11:59:59 in the alarm block and arms the device; the
    following [mca_rtc_read_alarm] succeeds and returns the alarm time,
    but its [enabled] member still holds what the caller passed in (0
    from the RTC core): the control register is read under the comment
    "Enable status" and the value read is overwritten by the status
    register before anything looks at it. *)
Theorem mca_rtc_read_alarm_after_set_alarm :
  let alrm := {| enabled := 1; pending := 0; time := noon_2024_03_01 |} in
  let '(r1, hw, w1) := mca_rtc_set_alarm (H := sample_registers) alrm sample_world in
  let '(r2, got, w2) := mca_rtc_read_alarm (H := sample_registers) cleared_alarm w1 in
  r1 = 0
  /\ load_bytes 265 7 (regs (bus w1)) = [232; 7; 3; 1; 11; 59; 59]
  /\ alarm_enabled (rtc w1) = true
  /\ Z.land (reg_val (regs (bus w2)) 257) 2 = 2
  /\ r2 = 0
  /\ with_calendar_of noon_2024_03_01 (time got) = time got
  /\ XRead 257 ∈ xlog (bus w2)
  /\ enabled got = 0.
Proof.
  vm_compute. repeat split; try reflexivity.
  apply list_elem_of_In. simpl. tauto.
Qed.

(** C4. Neither conversion of the ioctl shim guards its divisor.
    [RTC_MCA_IRQP_SET] with a frequency of 0 runs into [1024 / 0] before
    any transaction is issued, on every device; [RTC_MCA_IRQP_READ] does
    the same after reading a tick count of 0 from the hardware. *)
Theorem mca_rtc_ioctl_irqp_zero_divides :
  (forall (H : mca_registers) (w : world),
     mca_rtc_ioctl RTC_MCA_IRQP_SET 0 w = (IoctlDivideByZero, w))
  /\ fst (mca_rtc_ioctl (H := sample_registers) RTC_MCA_IRQP_READ 4096 sample_world)
     = IoctlDivideByZero.
Proof.
  split.
  - intros H w. reflexivity.
  - vm_compute. reflexivity.
Qed.

(** The masks of the sample layout cover their fields. *)
Lemma sample_masks_cover : masks_cover_fields (H := sample_registers).
Proof. repeat split; reflexivity. Qed.

Lemma mca_codec_roundtrip_zeroed_witness :
  mca_data_to_tm (H := sample_registers)
    (mca_tm_to_data (H := sample_registers) last_second_of_2024 (replicate 7 0))
    last_second_of_2024
  = last_second_of_2024
  /\ forall dst,
       mca_data_to_tm (H := sample_registers)
         (mca_tm_to_data (H := sample_registers) last_second_of_2024 (replicate 7 0)) dst
       = with_calendar_of last_second_of_2024 dst.
Proof.
  apply (mca_codec_roundtrip_zeroed (H := sample_registers) last_second_of_2024).
  - repeat split; reflexivity.
  - unfold in_hw_range, last_second_of_2024; simpl; lia.
Defined.

Lemma mca_tm_to_data_preserves_foreign_bits_witness :
  Z.testbit
    (byte_at (mca_tm_to_data (H := sample_registers) noon_2024_03_01
                [0; 0; 240; 224; 224; 192; 192]) 2) 7
  = Z.testbit (byte_at [0; 0; 240; 224; 224; 192; 192] 2) 7.
Proof.
  apply (mca_tm_to_data_preserves_foreign_bits (H := sample_registers)).
  - reflexivity.
  - repeat constructor; unfold is_u8; lia.
  - lia.
  - reflexivity.
Defined.

Lemma mca_rtc_adjust_alarm_time_roundtrip_witness :
  let alrm := {| enabled := 1; pending := 0; time := last_second_of_2024 |} in
  let back := mca_rtc_adjust_alarm_time (mca_rtc_adjust_alarm_time alrm false) true in
  time back = with_calendar_of (time alrm) (time back)
  /\ enabled back = enabled alrm /\ pending back = pending alrm.
Proof.
  apply (mca_rtc_adjust_alarm_time_roundtrip
           {| enabled := 1; pending := 0; time := last_second_of_2024 |}).
  - reflexivity.
  - simpl. lia.
  - reflexivity.
Defined.

Lemma mca_rtc_set_alarm_phases_witness :
  let alrm := {| enabled := 1; pending := 0; time := noon_2024_03_01 |} in
  let hw := mca_rtc_adjust_alarm_time alrm false in
  let block :=
    take (ALARM_DATA_LEN (H := sample_registers))
      (mca_tm_to_data (H := sample_registers) (time hw)
         (zeroed_data (H := sample_registers))) in
  rtc_tm_to_time64 (time hw) = rtc_tm_to_time64 (time alrm) - 1
  /\ in_hw_range (time hw)
  /\ forall dst,
       mca_data_to_tm (H := sample_registers) block dst = with_calendar_of (time hw) dst.
Proof.
  intros alrm hw block.
  pose proof (mca_rtc_set_alarm_phases (H := sample_registers) alrm sample_world)
    as Hphases.
  cbv zeta in Hphases.
  destruct (mca_rtc_set_alarm (H := sample_registers) alrm sample_world)
    as [[r alrm'] w'].
  destruct Hphases as (_ & _ & Hcal & _).
  destruct Hcal as (Hdown & Hrange & Hblock); [reflexivity | simpl; lia | reflexivity |].
  split; [exact Hdown |]. split; [exact Hrange |].
  intros dst. apply Hblock. apply sample_masks_cover.
Defined.

Lemma mca_rtc_set_time_read_time_witness :
  let '(r1, w1) := mca_rtc_set_time (H := sample_registers) noon_2024_03_01 sample_world in
  let '(r2, got, w2) :=
    mca_rtc_read_time (H := sample_registers) last_second_of_2024 w1 in
  r1 = 0 /\ got = with_calendar_of noon_2024_03_01 last_second_of_2024
  /\ r2 = rtc_valid_tm got.
Proof.
  apply (mca_rtc_set_time_read_time (H := sample_registers)
           noon_2024_03_01 last_second_of_2024 sample_world).
  - apply sample_masks_cover.
  - unfold in_hw_range, noon_2024_03_01; simpl; lia.
  - unfold outside_block; simpl; lia.
  - reflexivity.
Defined.

Lemma mca_rtc_set_alarm_read_alarm_witness :
  let alrm := {| enabled := 1; pending := 0; time := last_second_of_2024 |} in
  let '(r1, _, w1) := mca_rtc_set_alarm (H := sample_registers) alrm sample_world in
  let '(r2, got, w2) := mca_rtc_read_alarm (H := sample_registers) cleared_alarm w1 in
  r1 = 0 /\ r2 = 0
  /\ time got = with_calendar_of (time alrm) (time got)
  /\ enabled got = enabled cleared_alarm
  /\ alarm_enabled (rtc w1) = negb (enabled alrm =? 0).
Proof.
  apply (mca_rtc_set_alarm_read_alarm (H := sample_registers)
           {| enabled := 1; pending := 0; time := last_second_of_2024 |}
           cleared_alarm sample_world).
  - apply sample_masks_cover.
  - reflexivity.
  - simpl. lia.
  - reflexivity.
  - unfold outside_block; simpl; lia.
  - unfold outside_block; simpl; lia.
  - reflexivity.
Defined.



(** ** Runs of the driver on a scripted transport *)

(** Decide the comparisons between command codes in the goal. *)
Ltac decide_cmd :=
  repeat match goal with
  | |- context [?a =? ?b] =>
      match a with
      | RTC_MCA_UIE_ON => idtac | RTC_MCA_UIE_OFF => idtac
      | RTC_MCA_PIE_ON => idtac | RTC_MCA_PIE_OFF => idtac
      | RTC_MCA_IRQP_READ => idtac | RTC_MCA_IRQP_SET => idtac
      end;
      let v := eval vm_compute in (a =? b) in change (a =? b) with v
  end;
  cbn [orb].

(** The steps of a run of the driver on a scripted transport. *)
Ltac run_bus :=
  repeat first
    [ rewrite on_bus_update_bits
    | rewrite on_bus_bulk_write
    | rewrite on_bus_bulk_read
    | rewrite on_bus_write
    | rewrite on_bus_read
    | rewrite errno_of_neg
    | rewrite errno_of_zero
    | progress cbn [negb andb orb errno_of]
    | progress run_driver ].

(** The same when the script of the transport is known. *)
Ltac run_script :=
  repeat first
    [ progress run_bus
    | progress unfold next_outcome
    | progress cbn [head tail default from_option id] ].

(** Follow the script outcome by outcome until [fin] closes the goal. *)
Ltac walk_script sc fin :=
  destruct sc as [| [? |] sc]; run_script; first [solve [fin] | walk_script sc fin].

(** ** More on the register codec *)

Lemma merge_merge_u8 d m v1 v2 :
  to_u8 (Z.lor (Z.land (to_u8 (Z.lor (Z.land d (Z.lnot m)) (Z.land v1 m))) (Z.lnot m))
               (Z.land v2 m))
  = to_u8 (Z.lor (Z.land d (Z.lnot m)) (Z.land v2 m)).
Proof.
  apply Z.bits_inj'. intros n Hn.
  rewrite !to_u8_testbit, !Z.lor_spec, !Z.land_spec, to_u8_testbit, !Z.lnot_spec,
    Z.lor_spec, !Z.land_spec, Z.lnot_spec by lia.
  destruct (n <? 8), (Z.testbit d n), (Z.testbit m n), (Z.testbit v1 n),
    (Z.testbit v2 n); reflexivity.
Qed.

(** A seven-byte block is known by its seven bytes. *)
Lemma block_ext (a b : list Z) :
  length a = 7%nat -> length b = 7%nat ->
  (forall i, (i < 7)%nat -> byte_at a i = byte_at b i) -> a = b.
Proof.
  intros Ha Hb Hbytes.
  destruct a as [| a0 [| a1 [| a2 [| a3 [| a4 [| a5 [| a6 [| ? ?]]]]]]]];
    try discriminate Ha.
  destruct b as [| b0 [| b1 [| b2 [| b3 [| b4 [| b5 [| b6 [| ? ?]]]]]]]];
    try discriminate Hb.
  pose proof (Hbytes 0%nat ltac:(lia)) as H0.
  pose proof (Hbytes 1%nat ltac:(lia)) as H1.
  pose proof (Hbytes 2%nat ltac:(lia)) as H2.
  pose proof (Hbytes 3%nat ltac:(lia)) as H3.
  pose proof (Hbytes 4%nat ltac:(lia)) as H4.
  pose proof (Hbytes 5%nat ltac:(lia)) as H5.
  pose proof (Hbytes 6%nat ltac:(lia)) as H6.
  cbv [byte_at] in *. cbn in *. congruence.
Qed.

Section CodecLaws.
Context `{mca_registers}.

(** Encoding a second time over an encoded block leaves no trace of the
    first time: the block is the one the second time gives over the
    original content. *)
Theorem mca_tm_to_data_last_write_wins tm1 tm2 data :
  length data = 7%nat ->
  mca_tm_to_data tm2 (mca_tm_to_data tm1 data) = mca_tm_to_data tm2 data.
Proof.
  intros Hlen. apply block_ext.
  - rewrite !mca_tm_to_data_length. exact Hlen.
  - rewrite mca_tm_to_data_length. exact Hlen.
  - intros i Hi.
    rewrite (mca_tm_to_data_byte tm2 (mca_tm_to_data tm1 data))
      by (rewrite ?mca_tm_to_data_length; assumption).
    rewrite (mca_tm_to_data_byte tm1 data), (mca_tm_to_data_byte tm2 data) by assumption.
    apply merge_merge_u8.
Qed.

(** The codec checks no range: whatever the calendar time and the old
    content of the block, decoding the encoded block gives, field by
    field, the low byte of the value that was encoded under the mask of
    the field. *)
Theorem mca_codec_truncates tm dst data :
  length data = 7%nat ->
  let got := mca_data_to_tm (mca_tm_to_data tm data) dst in
  let year := to_int (tm_year tm + 1900) in
  tm_sec got = Z.land (to_u8 (tm_sec tm)) MCA_RTC_SEC_MASK
  /\ tm_min got = Z.land (to_u8 (tm_min tm)) MCA_RTC_MIN_MASK
  /\ tm_hour got = Z.land (to_u8 (tm_hour tm)) MCA_RTC_HOUR_MASK
  /\ tm_mday got = Z.land (to_u8 (tm_mday tm)) MCA_RTC_DAY_MASK
  /\ tm_mon got
     = to_int (Z.land (to_u8 (to_int (tm_mon tm + 1))) MCA_RTC_MONTH_MASK - 1)
  /\ tm_year got
     = to_int (Z.lor (Z.shiftl (Z.land (to_u8 (Z.shiftr year 8)) MCA_RTC_YEAR_H_MASK) 8)
                     (Z.land (to_u8 year) MCA_RTC_YEAR_L_MASK)
               - 1900)
  /\ tm_wday got = tm_wday dst /\ tm_yday got = tm_yday dst
  /\ tm_isdst got = tm_isdst dst.
Proof.
  intros Hlen got year. subst got year.
  unfold mca_data_to_tm,
    DATA_YEAR_L, DATA_YEAR_H, DATA_MONTH, DATA_DAY, DATA_HOUR, DATA_MIN, DATA_SEC.
  cbn [tm_sec tm_min tm_hour tm_mday tm_mon tm_year tm_wday tm_yday tm_isdst].
  rewrite !mca_tm_to_data_byte by (assumption || lia).
  cbn [field_mask field_value].
  rewrite !land_masked_store.
  repeat split; reflexivity.
Qed.

End CodecLaws.

(** ** The ioctl shim *)

Lemma u16_of_bytes_u16_bytes v : 0 <= v < 65536 -> u16_of_bytes (u16_bytes v) = v.
Proof.
  intros Hv. unfold u16_of_bytes, u16_bytes, byte_at. cbn.
  Z.div_mod_to_equations. lia.
Qed.

Lemma next_outcome_nil map : script map = [] -> next_outcome map = None.
Proof. unfold next_outcome. intros ->. reflexivity. Qed.

Lemma c_div_nonzero a b : b <> 0 -> c_div a b = Some (Z.quot a b).
Proof. intros Hb. unfold c_div. destruct (Z.eqb_spec b 0); [contradiction | reflexivity]. Qed.

Section IoctlFacts.
Context `{mca_registers}.

(** A command that is none of the six codes of the shim is answered with
    [-ENOIOCTLCMD] and nothing of the device changes. *)
Theorem mca_rtc_ioctl_unknown_cmd cmd arg w :
  ~ In cmd mca_ioctl_cmds ->
  mca_rtc_ioctl cmd arg w = (IoctlReturn (- ENOIOCTLCMD), w).
Proof.
  intros Hnot. unfold mca_rtc_ioctl.
  assert (Hne : forall c, In c mca_ioctl_cmds -> (cmd =? c) = false).
  { intros c Hc. apply Z.eqb_neq. intros ->. exact (Hnot Hc). }
  rewrite !Hne by (cbn; tauto). reflexivity.
Qed.

(** When the transaction of a command fails, the shim returns [-EFAULT]
    whatever the error of the transport was; the error goes to the log,
    and neither the registers nor the memory of the caller change. *)
Theorem mca_rtc_ioctl_transport_error cmd arg e w :
  In cmd mca_ioctl_cmds ->
  (cmd = RTC_MCA_IRQP_SET -> arg <> 0) ->
  next_outcome (bus w) = Some e ->
  let '(r, w') := mca_rtc_ioctl cmd arg w in
  r = IoctlReturn (- EFAULT)
  /\ regs (bus w') = regs (bus w)
  /\ umem w' = umem w
  /\ rtc w' = rtc w
  /\ length (xlog (bus w')) = S (length (xlog (bus w)))
  /\ exists fmt, dmesg w' = dmesg w ++ [DevErr fmt [Z.neg e]].
Proof.
  intros Hcmd Harg Hfail.
  cbn in Hcmd.
  destruct Hcmd as [<- | [<- | [<- | [<- | [<- | [<- | []]]]]]];
    unfold mca_rtc_ioctl; decide_cmd; cbv zeta;
    try rewrite c_div_nonzero by (apply Harg; reflexivity);
    run_bus; rewrite Hfail; run_bus;
    rewrite length_app, Nat.add_comm;
    (repeat split; try reflexivity); eexists; reflexivity.
Qed.

(** Setting the periodic frequency and reading it back: for a frequency
    between 1 and 1024 Hz both commands succeed; the frequency stored for
    the caller is [1024 / (1024 / hz)], which is never below the one that
    was set and equals it when it divides 1024. *)
Theorem mca_rtc_ioctl_irqp_set_read hz uarg w :
  1 <= hz <= 1024 -> script (bus w) = [] ->
  let '(r1, w1) := mca_rtc_ioctl RTC_MCA_IRQP_SET hz w in
  let '(r2, w2) := mca_rtc_ioctl RTC_MCA_IRQP_READ uarg w1 in
  r1 = IoctlReturn 0 /\ r2 = IoctlReturn 0
  /\ load_bytes MCA_RTC_PERIODIC_IRQ_FREQ 2 (regs (bus w1)) = u16_bytes (1024 / hz)
  /\ umem w2 !! uarg = Some (1024 / (1024 / hz))
  /\ hz <= 1024 / (1024 / hz)
  /\ (1024 mod hz = 0 -> umem w2 !! uarg = Some hz).
Proof.
  intros Hhz Hscript.
  assert (Hq : Z.quot 1024 hz = 1024 / hz) by (apply Z.quot_div_nonneg; lia).
  assert (Hticks : 1 <= 1024 / hz <= 1024).
  { split.
    - apply Z.div_le_lower_bound; lia.
    - apply Z.div_le_upper_bound; lia. }
  assert (Hq' : Z.quot 1024 (1024 / hz) = 1024 / (1024 / hz))
    by (apply Z.quot_div_nonneg; lia).
  assert (Hback : 1 <= 1024 / (1024 / hz) <= 1024).
  { split.
    - apply Z.div_le_lower_bound; lia.
    - apply Z.div_le_upper_bound; lia. }
  unfold mca_rtc_ioctl at 1. decide_cmd. cbv zeta.
  rewrite c_div_nonzero by lia. rewrite Hq.
  replace (to_u16 (1024 / hz)) with (1024 / hz)
    by (unfold to_u16; rewrite Z.mod_small; lia).
  run_bus. rewrite (next_outcome_nil _ Hscript). run_bus.
  unfold mca_rtc_ioctl. decide_cmd. cbv zeta.
  run_script. rewrite !Hscript. run_script.
  assert (Hload : forall r, load_bytes MCA_RTC_PERIODIC_IRQ_FREQ 2
                    (store_bytes MCA_RTC_PERIODIC_IRQ_FREQ (u16_bytes (1024 / hz)) r)
                  = u16_bytes (1024 / hz)).
  { intros r. apply (load_store_bytes (u16_bytes (1024 / hz))). }
  rewrite Hload. cbn [drop app].
  replace (u16_bytes (1024 / hz) ++ []) with (u16_bytes (1024 / hz)) by reflexivity.
  rewrite u16_of_bytes_u16_bytes by lia.
  rewrite c_div_nonzero by lia. rewrite Hq'.
  run_bus.
  replace (to_ulong (1024 / (1024 / hz))) with (1024 / (1024 / hz))
    by (unfold to_ulong, BITS_PER_LONG; rewrite Z.mod_small; lia).
  rewrite lookup_insert_eq.
  repeat split; try reflexivity.
  - apply Z.div_le_lower_bound; [lia |].
    rewrite Z.mul_comm. apply Z.mul_div_le. lia.
  - intros Hdiv. f_equal.
    assert (Hexact : 1024 = hz * (1024 / hz)) by (apply Z.div_exact; lia).
    symmetry. apply Z.div_unique_exact; lia.
Qed.

(** A frequency above 1024 Hz is accepted: the command stores a tick
    count of 0 and returns 0, and the next read of the frequency then
    divides by zero. *)
Theorem mca_rtc_ioctl_irqp_set_above_1024 hz uarg w :
  1024 < hz -> script (bus w) = [] ->
  let '(r1, w1) := mca_rtc_ioctl RTC_MCA_IRQP_SET hz w in
  r1 = IoctlReturn 0
  /\ load_bytes MCA_RTC_PERIODIC_IRQ_FREQ 2 (regs (bus w1)) = [0; 0]
  /\ fst (mca_rtc_ioctl RTC_MCA_IRQP_READ uarg w1) = IoctlDivideByZero.
Proof.
  intros Hhz Hscript.
  assert (Hq : Z.quot 1024 hz = 0) by (apply Z.quot_small; lia).
  unfold mca_rtc_ioctl at 1. decide_cmd. cbv zeta.
  rewrite c_div_nonzero by lia. rewrite Hq.
  change (u16_bytes (to_u16 0)) with [0; 0].
  run_bus. rewrite (next_outcome_nil _ Hscript). run_bus.
  assert (Hload : forall r, load_bytes MCA_RTC_PERIODIC_IRQ_FREQ 2
                    (store_bytes MCA_RTC_PERIODIC_IRQ_FREQ [0; 0] r) = [0; 0]).
  { intros r. apply (load_store_bytes [0; 0]). }
  split; [reflexivity |]. split; [apply Hload |].
  unfold mca_rtc_ioctl. decide_cmd. cbv zeta.
  run_script. rewrite !Hscript. run_script. rewrite Hload. reflexivity.
Qed.

End IoctlFacts.

(** ** Clock and alarm, transaction by transaction *)

Lemma store_bytes_above bytes : forall reg (r : gmap Z Z) a,
  reg + Z.of_nat (length bytes) <= a -> store_bytes reg bytes r !! a = r !! a.
Proof.
  induction bytes as [| b bs IH]; intros reg r a Hge; simpl.
  - reflexivity.
  - cbn [length] in Hge. rewrite IH by lia. apply lookup_insert_ne. lia.
Qed.

Lemma merge_bits_clear_set c m : merge_bits (merge_bits c m 0) m m = Z.lor c m.
Proof.
  unfold merge_bits. apply Z.bits_inj'. intros n Hn.
  rewrite !Z.lor_spec, !Z.land_spec, Z.lor_spec, !Z.land_spec, !Z.lnot_spec,
    Z.bits_0 by lia.
  destruct (Z.testbit c n), (Z.testbit m n); reflexivity.
Qed.

Lemma merge_bits_set c m : merge_bits c m m = Z.lor c m.
Proof.
  unfold merge_bits. apply Z.bits_inj'. intros n Hn.
  rewrite !Z.lor_spec, !Z.land_spec, !Z.lnot_spec by lia.
  destruct (Z.testbit c n), (Z.testbit m n); reflexivity.
Qed.

Lemma lor_absorb c m : Z.land c m = m -> Z.lor c m = c.
Proof.
  intros Hc. apply Z.bits_inj'. intros n Hn.
  apply (f_equal (fun z => Z.testbit z n)) in Hc.
  rewrite Z.land_spec in Hc. rewrite Z.lor_spec.
  destruct (Z.testbit c n), (Z.testbit m n); simpl in *; congruence.
Qed.

Section ClockFacts.
Context `{mca_registers}.

Lemma mca_tm_to_data_u8 tm data :
  length data = 7%nat -> Forall is_u8 (mca_tm_to_data tm data).
Proof.
  intros Hlen. apply Forall_lookup. intros i b Hb.
  assert (Hi : (i < 7)%nat).
  { apply lookup_lt_Some in Hb. rewrite mca_tm_to_data_length in Hb. lia. }
  pose proof (mca_tm_to_data_byte tm data i Hlen Hi) as Hbyte.
  unfold byte_at at 1 in Hbyte. rewrite Hb in Hbyte. cbn in Hbyte.
  rewrite Hbyte. apply to_u8_range.
Qed.

(** [mca_rtc_read_time], transaction by transaction. With the prepare
    command in use the acquire request is written first, and its failure
    does not fail the call; the outcome of the call is that of the block
    read. A failed read hands the error of the transport to the caller
    and leaves [tm] alone; otherwise [tm] is decoded from the clock block
    and the return code is the verdict of [rtc_valid_tm] on it. No
    register but the prepare register is written. *)
Theorem mca_rtc_read_time_transactions tm w :
  let prep := prepare_enabled (rtc w) in
  let '(r, tm', w') := mca_rtc_read_time tm w in
  xlog (bus w')
  = xlog (bus w)
    ++ (if prep then [XWrite MCA_RTC_PREPARE_DATETIME MCA_RTC_ACQUIRE_REQUESTED] else [])
    ++ [XBulkRead MCA_RTC_COUNT_YEAR_L CLOCK_DATA_LEN]
  /\ rtc w' = rtc w
  /\ regs (bus w')
     = match prep, next_outcome (bus w) with
       | true, None =>
           <[MCA_RTC_PREPARE_DATETIME := MCA_RTC_ACQUIRE_REQUESTED]> (regs (bus w))
       | _, _ => regs (bus w)
       end
  /\ match outcome_at (if prep then 1 else 0) (bus w) with
     | Some e => r = Z.neg e /\ tm' = tm
     | None =>
         tm' = mca_data_to_tm
                 (load_bytes MCA_RTC_COUNT_YEAR_L CLOCK_DATA_LEN (regs (bus w'))) tm
         /\ r = rtc_valid_tm tm'
     end.
Proof.
  assert (Hdrop : drop CLOCK_DATA_LEN zeroed_data = []).
  { unfold zeroed_data. apply drop_ge. rewrite length_replicate. lia. }
  destruct w as [[ia ih ip armed prep] [r sc lg] wake dm nt um].
  unfold mca_rtc_read_time, outcome_at. cbv zeta.
  generalize rtc_valid_tm. intros valid.
  destruct prep; run_script;
    walk_script sc
      ltac:(rewrite ?Hdrop, ?app_nil_r, <- ?app_assoc; repeat split; reflexivity).
Qed.

(** [mca_rtc_set_time] checks nothing and issues one transaction, the
    write of the seven encoded bytes to the clock block. When it fails
    the error of the transport is returned and logged and no register
    changes; when it succeeds the block holds the encoded bytes and every
    register outside the block keeps its value. *)
Theorem mca_rtc_set_time_frame tm w :
  let block := mca_tm_to_data tm (replicate 7 0) in
  let '(r, w') := mca_rtc_set_time tm w in
  xlog (bus w') = xlog (bus w) ++ [XBulkWrite MCA_RTC_COUNT_YEAR_L block]
  /\ length block = 7%nat /\ Forall is_u8 block
  /\ rtc w' = rtc w
  /\ match next_outcome (bus w) with
     | Some e =>
         r = Z.neg e /\ regs (bus w') = regs (bus w)
         /\ dmesg w' = dmesg w ++ [DevErr "Failed to set RTC time data: %d\n" [Z.neg e]]
     | None =>
         r = 0
         /\ load_bytes MCA_RTC_COUNT_YEAR_L 7 (regs (bus w')) = block
         /\ (forall a, outside_block a MCA_RTC_COUNT_YEAR_L ->
                       regs (bus w') !! a = regs (bus w) !! a)
         /\ dmesg w' = dmesg w
     end.
Proof.
  intros block.
  assert (Hblock : take CLOCK_DATA_LEN (mca_tm_to_data tm zeroed_data) = block)
    by apply take_block, CLOCK_DATA_LEN_eq.
  assert (Hlen : length block = 7%nat).
  { unfold block. rewrite mca_tm_to_data_length. apply length_replicate. }
  assert (Hu8 : Forall is_u8 block) by apply mca_tm_to_data_u8, length_replicate.
  unfold mca_rtc_set_time. cbv zeta. rewrite Hblock.
  clearbody block. run_bus.
  destruct (next_outcome (bus w)) as [e |]; run_bus.
  - repeat split; (reflexivity || assumption).
  - repeat split; try (reflexivity || assumption).
    + rewrite <- Hlen. apply load_store_bytes.
    + intros a [Hlow | Hhigh].
      * apply store_bytes_below. exact Hlow.
      * apply store_bytes_above. rewrite Hlen. lia.
Qed.


(** [mca_rtc_set_alarm] adjusts the alarm time in the caller's
    [rtc_wkalrm] itself: for an alarm time after 1970-01-01 00:00:00 and
    whatever the transport does, the caller finds its alarm time one
    second earlier than it passed it in, and the [enabled] and [pending]
    members as they were. *)
Theorem mca_rtc_set_alarm_moves_caller_time alrm w :
  rtc_valid_tm (time alrm) = 0 -> tm_year (time alrm) + 1900 <= 65535 ->
  0 < rtc_tm_to_time64 (time alrm) ->
  let alrm' := snd (fst (mca_rtc_set_alarm alrm w)) in
  rtc_tm_to_time64 (time alrm') = rtc_tm_to_time64 (time alrm) - 1
  /\ in_hw_range (time alrm')
  /\ enabled alrm' = enabled alrm /\ pending alrm' = pending alrm.
Proof.
  intros Hvalid Hyear Hafter alrm'.
  destruct (mca_rtc_adjust_alarm_time_down alrm Hvalid Hyear Hafter) as [Hrange Hdown].
  assert (Halrm : alrm' = mca_rtc_adjust_alarm_time alrm false).
  { subst alrm'. unfold mca_rtc_set_alarm. cbv zeta.
    generalize (mca_rtc_adjust_alarm_time alrm false). intros hw.
    unfold bind at 1. rewrite on_bus_bulk_write, errno_of_neg.
    destruct (next_outcome (bus w)); [reflexivity |].
    unfold bind.
    match goal with
    | |- context [mca_rtc_alarm_irq_enable ?en ?w1] =>
        destruct (mca_rtc_alarm_irq_enable en w1)
    end.
    reflexivity. }
  rewrite Halrm. split; [exact Hdown | split; [exact Hrange | split; reflexivity]].
Qed.

(** A suspend followed by a resume, with no transport fault: when the
    hooks act (wake-up disabled, alarm armed) the control register ends
    with the alarm-enable bit set and its other bits as they were, so a
    register that had the bit set is restored exactly; otherwise the
    control register is not touched. No other register changes. *)
Theorem mca_rtc_suspend_resume_control w :
  script (bus w) = [] ->
  let w2 := snd (mca_rtc_resume (snd (mca_rtc_suspend w))) in
  let ctl := reg_val (regs (bus w)) MCA_RTC_CONTROL in
  reg_val (regs (bus w2)) MCA_RTC_CONTROL
  = (if negb (may_wakeup w) && alarm_enabled (rtc w)
     then Z.lor ctl MCA_RTC_ALARM_EN else ctl)
  /\ (Z.land ctl MCA_RTC_ALARM_EN = MCA_RTC_ALARM_EN ->
      reg_val (regs (bus w2)) MCA_RTC_CONTROL = ctl)
  /\ (forall a, a <> MCA_RTC_CONTROL -> regs (bus w2) !! a = regs (bus w) !! a)
  /\ rtc w2 = rtc w /\ dmesg w2 = dmesg w.
Proof.
  intros Hscript w2 ctl.
  assert (Hctl : reg_val (regs (bus w2)) MCA_RTC_CONTROL
                 = (if negb (may_wakeup w) && alarm_enabled (rtc w)
                    then Z.lor ctl MCA_RTC_ALARM_EN else ctl)
                 /\ (forall a, a <> MCA_RTC_CONTROL ->
                               regs (bus w2) !! a = regs (bus w) !! a)
                 /\ rtc w2 = rtc w /\ dmesg w2 = dmesg w).
  { subst w2 ctl.
    destruct w as [[ia ih ip armed prep] [r sc lg] wake dm nt um].
    cbn [bus script] in Hscript. subst sc.
    unfold mca_rtc_suspend, mca_rtc_resume, mca_rtc_stop_alarm, mca_rtc_start_alarm.
    destruct wake, armed; run_script; try (repeat split; reflexivity).
    split; [| split; [| split; reflexivity]].
    - rewrite !reg_val_after_update, !decide_True by reflexivity.
      apply merge_bits_clear_set.
    - intros a Ha. rewrite !lookup_after_update by exact Ha. reflexivity. }
  destruct Hctl as (Hval & Hframe & Hrtc & Hlog).
  split; [exact Hval |]. split; [| repeat split; assumption].
  intros Hset. rewrite Hval.
  destruct (negb (may_wakeup w) && alarm_enabled (rtc w)); [| reflexivity].
  apply lor_absorb. exact Hset.
Qed.

End ClockFacts.

(** ** The sysfs attributes *)


Lemma to_uint_low_byte v : to_uint v mod 256 = v mod 256.
Proof.
  unfold to_uint. change (2 ^ 32) with 4294967296.
  Z.div_mod_to_equations. lia.
Qed.

Section AttributeFacts.
Context `{mca_registers}.


(** The attribute's [show] reads the control register once and changes
    no register. When the read fails it returns 0 and leaves the buffer
    alone: the failure shows as an empty attribute, not as an error.
    Otherwise the text is "enabled" or "disabled" by the pin-enable bit,
    a newline after it, and the return value is its length. *)
Theorem rtc_irq_pin_enable_show_result old w :
  let '(r, text, w') := rtc_irq_pin_enable_show old w in
  let ctl := reg_val (regs (bus w)) MCA_RTC_CONTROL in
  regs (bus w') = regs (bus w) /\ rtc w' = rtc w
  /\ xlog (bus w') = xlog (bus w) ++ [XRead MCA_RTC_CONTROL]
  /\ match next_outcome (bus w) with
     | Some e =>
         r = 0 /\ text = old
         /\ dmesg w'
            = dmesg w ++ [DevErr "Cannot read MCA MCA_RTC_CONTROL register(%d)\n" [Z.neg e]]
     | None =>
         dmesg w' = dmesg w
         /\ if Z.land ctl MCA_RTC_IRQ_PIN_EN =? 0
            then text = String.append "disabled" newline /\ r = 9
            else text = String.append "enabled" newline /\ r = 8
     end.
Proof.
  unfold rtc_irq_pin_enable_show. cbv zeta. run_bus.
  destruct (next_outcome (bus w)) as [e |]; run_bus.
  - repeat split; reflexivity.
  - destruct (Z.land (reg_val (regs (bus w)) MCA_RTC_CONTROL) MCA_RTC_IRQ_PIN_EN =? 0);
      run_bus; repeat split; reflexivity.
Qed.

(** What was written to the irq-pin-enable attribute is what it shows
    afterwards. *)
Theorem rtc_irq_pin_enable_store_show buf count old (on : bool) w :
  MCA_RTC_IRQ_PIN_EN <> 0 -> script (bus w) = [] ->
  parse_enable buf = Some on ->
  let '(r1, w1) := rtc_irq_pin_enable_store buf count w in
  let '(r2, text, w2) := rtc_irq_pin_enable_show old w1 in
  r1 = count
  /\ text = String.append (if on then "enabled" else "disabled") newline
  /\ r2 = Z.of_nat (String.length text).
Proof.
  intros Hbit Hscript Hparse.
  unfold rtc_irq_pin_enable_store, rtc_irq_pin_enable_show. rewrite Hparse.
  cbv zeta. run_script. rewrite !Hscript. run_script.
  rewrite reg_val_after_update, decide_True, merge_bits_mask by reflexivity.
  destruct on.
  - rewrite Z.land_diag. destruct (Z.eqb_spec MCA_RTC_IRQ_PIN_EN 0); [contradiction |].
    run_bus. repeat split; reflexivity.
  - rewrite Z.land_0_l. run_bus. repeat split; reflexivity.
Qed.

(** The pin attribute writes one byte, the lowest of the number parsed:
    the number is not checked against the range of a byte, so a number
    and the same number plus 256 select the same pin. A text that does
    not parse is answered with [-EINVAL], whatever the parser said, and
    with no transaction. *)
Theorem rtc_irq_pin_store_result (kstrtouint : string -> Z -> Z * Z) buf size w :
  let '(status, value) := kstrtouint buf 0 in
  let '(r, w') := rtc_irq_pin_store kstrtouint buf size w in
  if status =? 0 then
    xlog (bus w') = xlog (bus w) ++ [XBulkWrite MCA_RTC_IRQ_PIN [value mod 256]]
    /\ match next_outcome (bus w) with
       | Some e => r = Z.neg e /\ regs (bus w') = regs (bus w)
       | None =>
           r = size
           /\ reg_val (regs (bus w')) MCA_RTC_IRQ_PIN = value mod 256
           /\ forall a, a <> MCA_RTC_IRQ_PIN -> regs (bus w') !! a = regs (bus w) !! a
       end
  else
    r = - EINVAL /\ bus w' = bus w
    /\ dmesg w' = dmesg w ++ [DevErr "Invalid RTC irq pin\n" []].
Proof.
  unfold rtc_irq_pin_store.
  destruct (kstrtouint buf 0) as [status value].
  destruct (status =? 0); cbn [negb].
  - unfold uint_bytes. cbn [take]. rewrite to_uint_low_byte.
    run_bus. destruct (next_outcome (bus w)) as [e |]; run_bus.
    + repeat split; reflexivity.
    + cbn [store_bytes]. split; [reflexivity |]. split; [reflexivity |]. split.
      * unfold reg_val. rewrite lookup_insert_eq. reflexivity.
      * intros a Ha. apply lookup_insert_ne. congruence.
  - run_bus. repeat split; reflexivity.
Qed.

End AttributeFacts.

(** ** Probe and remove *)

Section ProbeFacts.
Context `{mca_registers}.

Lemma request_line_run env src member pd r :
  drvdata pd = Some r ->
  request_line env src member pd
  = {| drvdata :=
         Some (if devm_request_threaded_irq env (platform_get_irq_byname env src) src =? 0
               then member (platform_get_irq_byname env src) r
               else member (- ENXIO) (member (platform_get_irq_byname env src) r));
       wakeup_init := wakeup_init pd;
       mca_regmap := mca_regmap pd;
       klog := klog pd ++ line_log env src;
       rtc_dev := rtc_dev pd;
       irq_actions := irq_actions pd ++ line_action env src;
       freed_irqs := freed_irqs pd;
       sysfs_group := sysfs_group pd |}.
Proof.
  intros Hr. unfold request_line, line_action, line_log, rtc_store.
  cbv zeta. rewrite Hr.
  destruct (devm_request_threaded_irq env (platform_get_irq_byname env src) src =? 0);
    cbn [negb].
  - unfold with_irq_action, platform_set_drvdata.
    cbn [drvdata wakeup_init mca_regmap klog rtc_dev irq_actions freed_irqs sysfs_group].
    rewrite app_nil_r. reflexivity.
  - unfold pdev_err, platform_set_drvdata.
    cbn [drvdata wakeup_init mca_regmap klog rtc_dev irq_actions freed_irqs sysfs_group].
    rewrite app_nil_r. reflexivity.
Qed.

(** The three interrupt lines, one after the other. *)
Lemma request_lines_run env pd r :
  drvdata pd = Some r ->
  request_line env IrqPeriodic set_irq_periodic
    (request_line env Irq1Hz set_irq_1HZ
       (request_line env IrqAlarm set_irq_alarm pd))
  = {| drvdata :=
         Some {| irq_alarm := line_member env IrqAlarm;
                 irq_1HZ := line_member env Irq1Hz;
                 irq_periodic := line_member env IrqPeriodic;
                 alarm_enabled := alarm_enabled r;
                 prepare_enabled := prepare_enabled r |};
       wakeup_init := wakeup_init pd;
       mca_regmap := mca_regmap pd;
       klog := klog pd ++ line_log env IrqAlarm ++ line_log env Irq1Hz
               ++ line_log env IrqPeriodic;
       rtc_dev := rtc_dev pd;
       irq_actions := irq_actions pd ++ line_action env IrqAlarm
                      ++ line_action env Irq1Hz ++ line_action env IrqPeriodic;
       freed_irqs := freed_irqs pd;
       sysfs_group := sysfs_group pd |}.
Proof.
  intros Hr.
  rewrite (request_line_run env IrqAlarm set_irq_alarm pd r Hr).
  erewrite (request_line_run env Irq1Hz) by reflexivity.
  erewrite (request_line_run env IrqPeriodic) by reflexivity.
  cbn [drvdata wakeup_init mca_regmap klog rtc_dev irq_actions freed_irqs sysfs_group].
  unfold line_member. cbv zeta. rewrite <- !app_assoc.
  destruct (devm_request_threaded_irq env (platform_get_irq_byname env IrqAlarm) IrqAlarm
            =? 0),
    (devm_request_threaded_irq env (platform_get_irq_byname env Irq1Hz) Irq1Hz =? 0),
    (devm_request_threaded_irq env (platform_get_irq_byname env IrqPeriodic) IrqPeriodic
     =? 0);
    reflexivity.
Qed.

(** The probe in full when it gets as far as the hardware. *)
Lemma mca_rtc_probe_run env pd mca :
  parent_drvdata env = Some mca ->
  probe_reaches_hardware env = true ->
  let map :=
    {| regs := match next_outcome (mca_regmap pd) with
               | Some _ => regs (mca_regmap pd)
               | None => regs_after_update MCA_RTC_CONTROL MCA_RTC_EN MCA_RTC_EN
                           (regs (mca_regmap pd))
               end;
       script := tail (script (mca_regmap pd));
       xlog := xlog (mca_regmap pd)
               ++ [XUpdateBits MCA_RTC_CONTROL MCA_RTC_EN MCA_RTC_EN] |} in
  let early (log : list printk) :=
    {| drvdata := Some (set_prepare_enabled (rtc_prepare_enabled mca) zeroed_rtc);
       wakeup_init := true; mca_regmap := map; klog := klog pd ++ log;
       rtc_dev := rtc_dev pd; irq_actions := irq_actions pd;
       freed_irqs := freed_irqs pd; sysfs_group := sysfs_group pd |} in
  let late (log : list printk) (group : bool) :=
    {| drvdata :=
         Some {| irq_alarm := line_member env IrqAlarm;
                 irq_1HZ := line_member env Irq1Hz;
                 irq_periodic := line_member env IrqPeriodic;
                 alarm_enabled := false;
                 prepare_enabled := rtc_prepare_enabled mca |};
       wakeup_init := true; mca_regmap := map;
       klog := klog pd ++ line_log env IrqAlarm ++ line_log env Irq1Hz
               ++ line_log env IrqPeriodic ++ log;
       rtc_dev := true;
       irq_actions := irq_actions pd ++ line_action env IrqAlarm
                      ++ line_action env Irq1Hz ++ line_action env IrqPeriodic;
       freed_irqs := freed_irqs pd;
       sysfs_group := group |} in
  mca_rtc_probe env pd
  = match next_outcome (mca_regmap pd) with
    | Some e => (Z.neg e, early [DevErr "Failed to enable RTC.\n" []])
    | None =>
        match devm_rtc_device_register env with
        | Some e =>
            (Z.neg e, early [DevErr "Failed to register RTC device: %ld\n" [Z.neg e]])
        | None =>
            if sysfs_create_group env =? 0 then (0, late [] true)
            else (sysfs_create_group env,
                  late [DevErr "Failed to create sysfs entries (%d).\n"
                          [sysfs_create_group env]] (sysfs_group pd))
        end
    end.
Proof.
  intros Hmca Hreach map early late. subst map early late.
  unfold probe_reaches_hardware in Hreach. rewrite Hmca in Hreach.
  apply andb_prop in Hreach as [Hreach Hnode].
  apply andb_prop in Hreach as [Hparent Halloc].
  unfold mca_rtc_probe. rewrite Hmca, Hparent, Halloc, Hnode. cbn [negb]. cbv zeta.
  unfold regmap_update_bits, xfer_begin.
  cbn [rtc_store platform_set_drvdata device_init_wakeup drvdata wakeup_init mca_regmap
       klog rtc_dev irq_actions freed_irqs sysfs_group regs script xlog].
  destruct (next_outcome (mca_regmap pd)) as [e |].
  - reflexivity.
  - change (0 <? 0) with false. cbv iota.
    assert (Hmap : (if merge_bits (reg_val (regs (mca_regmap pd)) MCA_RTC_CONTROL)
                          MCA_RTC_EN MCA_RTC_EN
                        =? reg_val (regs (mca_regmap pd)) MCA_RTC_CONTROL
                    then {| regs := regs (mca_regmap pd);
                            script := tail (script (mca_regmap pd));
                            xlog := xlog (mca_regmap pd)
                                    ++ [XUpdateBits MCA_RTC_CONTROL MCA_RTC_EN MCA_RTC_EN] |}
                    else set_regs
                           (<[MCA_RTC_CONTROL :=
                                merge_bits (reg_val (regs (mca_regmap pd)) MCA_RTC_CONTROL)
                                  MCA_RTC_EN MCA_RTC_EN]> (regs (mca_regmap pd)))
                           {| regs := regs (mca_regmap pd);
                              script := tail (script (mca_regmap pd));
                              xlog := xlog (mca_regmap pd)
                                      ++ [XUpdateBits MCA_RTC_CONTROL MCA_RTC_EN MCA_RTC_EN] |})
                   = {| regs := regs_after_update MCA_RTC_CONTROL MCA_RTC_EN MCA_RTC_EN
                                  (regs (mca_regmap pd));
                        script := tail (script (mca_regmap pd));
                        xlog := xlog (mca_regmap pd)
                                ++ [XUpdateBits MCA_RTC_CONTROL MCA_RTC_EN MCA_RTC_EN] |}).
    { unfold regs_after_update, set_regs. destruct (_ =? _); reflexivity. }
    cbn [regs script xlog]. rewrite Hmap.
    destruct (devm_rtc_device_register env) as [e |]; [reflexivity |].
    erewrite request_lines_run by reflexivity.
    cbn [drvdata wakeup_init mca_regmap klog rtc_dev irq_actions freed_irqs sysfs_group
         with_rtc_dev with_regmap alarm_enabled prepare_enabled set_prepare_enabled
         zeroed_rtc].
    destruct (sysfs_create_group env =? 0); cbn [negb].
    + unfold with_sysfs_group.
      cbn [drvdata wakeup_init mca_regmap klog rtc_dev irq_actions freed_irqs sysfs_group].
      rewrite app_nil_r. reflexivity.
    + unfold pdev_err.
      cbn [drvdata wakeup_init mca_regmap klog rtc_dev irq_actions freed_irqs sysfs_group].
      rewrite <- !app_assoc. reflexivity.
Qed.

Lemma mca_rtc_probe_early env pd :
  probe_reaches_hardware env = false ->
  mca_regmap (snd (mca_rtc_probe env pd)) = mca_regmap pd
  /\ fst (mca_rtc_probe env pd) <> 0.
Proof.
  unfold probe_reaches_hardware, mca_rtc_probe.
  destruct (parent_drvdata env) as [mca |]; [| split; [reflexivity | discriminate]].
  destruct (parent_of_node mca); cbn [andb negb]; [| split; [reflexivity | discriminate]].
  destruct (devm_kzalloc env); cbn [andb negb]; [| split; [reflexivity | discriminate]].
  intros ->. cbn [negb]. split; [reflexivity | discriminate].
Qed.

(** A probe that returns 0 got as far as the hardware and through every
    step after it. *)
Lemma mca_rtc_probe_zero env pd :
  fst (mca_rtc_probe env pd) = 0 ->
  exists mca,
    parent_drvdata env = Some mca
    /\ probe_reaches_hardware env = true
    /\ next_outcome (mca_regmap pd) = None
    /\ devm_rtc_device_register env = None
    /\ sysfs_create_group env = 0.
Proof.
  intros Hzero.
  destruct (probe_reaches_hardware env) eqn:Hreach.
  - destruct (parent_drvdata env) as [mca |] eqn:Hmca;
      [| unfold probe_reaches_hardware in Hreach; rewrite Hmca in Hreach; discriminate].
    exists mca. rewrite (mca_rtc_probe_run env pd mca Hmca Hreach) in Hzero.
    destruct (next_outcome (mca_regmap pd)) as [e |]; [discriminate Hzero |].
    destruct (devm_rtc_device_register env) as [e |]; [discriminate Hzero |].
    destruct (Z.eqb_spec (sysfs_create_group env) 0) as [Hs | Hs].
    + repeat split; (reflexivity || assumption).
    + cbn [fst] in Hzero. contradiction.
  - destruct (mca_rtc_probe_early env pd Hreach) as [_ Hne]. contradiction.
Qed.

(** The probe up to the registration of the RTC device. When it gives
    up before the hardware (no parent data, no memory, no available
    device-tree node) it returns [-EPROBE_DEFER], [-ENOMEM] or [-ENODEV]
    and has issued no transaction, written no log line and registered
    nothing. Otherwise its first transaction is the read-modify-write
    that sets the RTC-enable bit of the control register; when that
    transaction fails the probe returns the error of the transport with
    no register changed, one line in the log, no RTC device registered,
    no interrupt requested and no attribute created. *)
Theorem mca_rtc_probe_before_registration env pd :
  let '(r, pd') := mca_rtc_probe env pd in
  let enable := XUpdateBits MCA_RTC_CONTROL MCA_RTC_EN MCA_RTC_EN in
  if probe_reaches_hardware env then
    match next_outcome (mca_regmap pd) with
    | Some e =>
        r = Z.neg e
        /\ xlog (mca_regmap pd') = xlog (mca_regmap pd) ++ [enable]
        /\ regs (mca_regmap pd') = regs (mca_regmap pd)
        /\ klog pd' = klog pd ++ [DevErr "Failed to enable RTC.\n" []]
        /\ rtc_dev pd' = rtc_dev pd /\ irq_actions pd' = irq_actions pd
        /\ sysfs_group pd' = sysfs_group pd
    | None =>
        exists rest, xlog (mca_regmap pd') = xlog (mca_regmap pd) ++ enable :: rest
    end
  else
    (r = - EPROBE_DEFER \/ r = - ENOMEM \/ r = - ENODEV)
    /\ mca_regmap pd' = mca_regmap pd /\ klog pd' = klog pd
    /\ rtc_dev pd' = rtc_dev pd /\ irq_actions pd' = irq_actions pd
    /\ sysfs_group pd' = sysfs_group pd.
Proof.
  destruct (mca_rtc_probe env pd) as [r pd'] eqn:Hrun. cbv zeta.
  destruct (probe_reaches_hardware env) eqn:Hreach.
  - destruct (parent_drvdata env) as [mca |] eqn:Hmca;
      [| unfold probe_reaches_hardware in Hreach; rewrite Hmca in Hreach; discriminate].
    rewrite (mca_rtc_probe_run env pd mca Hmca Hreach) in Hrun.
    destruct (next_outcome (mca_regmap pd)) as [e |].
    + injection Hrun as <- <-.
      cbn [mca_regmap klog rtc_dev irq_actions sysfs_group regs xlog].
      repeat split; reflexivity.
    + exists [].
      destruct (devm_rtc_device_register env) as [e |].
      * injection Hrun as <- <-. reflexivity.
      * destruct (sysfs_create_group env =? 0); injection Hrun as <- <-; reflexivity.
  - unfold probe_reaches_hardware in Hreach. unfold mca_rtc_probe in Hrun.
    destruct (parent_drvdata env) as [mca |].
    + destruct (parent_of_node mca); cbn [andb negb] in *.
      * destruct (devm_kzalloc env); cbn [andb negb] in *.
        -- rewrite Hreach in Hrun. cbn [negb] in Hrun. injection Hrun as <- <-.
           split; [tauto |]. repeat split; reflexivity.
        -- injection Hrun as <- <-. split; [tauto |]. repeat split; reflexivity.
      * injection Hrun as <- <-. split; [tauto |]. repeat split; reflexivity.
    + injection Hrun as <- <-. split; [tauto |]. repeat split; reflexivity.
Qed.

(** No interrupt line can fail the probe: its return value is the same
    whatever the interrupt layer answers. *)
Theorem mca_rtc_probe_ignores_irq_failures env get request pd :
  fst (mca_rtc_probe (with_irq_layer get request env) pd) = fst (mca_rtc_probe env pd).
Proof.
  destruct (probe_reaches_hardware env) eqn:Hreach.
  - destruct (parent_drvdata env) as [mca |] eqn:Hmca;
      [| unfold probe_reaches_hardware in Hreach; rewrite Hmca in Hreach; discriminate].
    rewrite (mca_rtc_probe_run env pd mca Hmca Hreach).
    rewrite (mca_rtc_probe_run (with_irq_layer get request env) pd mca Hmca Hreach).
    cbn [with_irq_layer devm_rtc_device_register sysfs_create_group].
    destruct (next_outcome (mca_regmap pd)); [reflexivity |].
    destruct (devm_rtc_device_register env); [reflexivity |].
    destruct (sysfs_create_group env =? 0); reflexivity.
  - unfold probe_reaches_hardware in Hreach. unfold mca_rtc_probe.
    cbn [with_irq_layer parent_drvdata devm_kzalloc of_find_compatible_node].
    destruct (parent_drvdata env) as [mca |]; [| reflexivity].
    destruct (parent_of_node mca); cbn [andb negb] in *; [| reflexivity].
    destruct (devm_kzalloc env); cbn [andb negb] in *; [| reflexivity].
    rewrite Hreach. reflexivity.
Qed.

(** The driver state a successful probe leaves: each interrupt member
    holds the number of its line, or [-ENXIO] when the request for the
    line failed; the handlers installed are those of the lines whose
    request succeeded, and each failed request has its line in the log;
    the prepare flag is the parent's; the RTC device and the attribute
    group exist. *)
Theorem mca_rtc_probe_state env pd :
  fst (mca_rtc_probe env pd) = 0 ->
  let pd' := snd (mca_rtc_probe env pd) in
  exists mca,
    parent_drvdata env = Some mca
    /\ drvdata pd'
       = Some {| irq_alarm := line_member env IrqAlarm;
                 irq_1HZ := line_member env Irq1Hz;
                 irq_periodic := line_member env IrqPeriodic;
                 alarm_enabled := false;
                 prepare_enabled := rtc_prepare_enabled mca |}
    /\ irq_actions pd'
       = irq_actions pd ++ line_action env IrqAlarm ++ line_action env Irq1Hz
         ++ line_action env IrqPeriodic
    /\ klog pd'
       = klog pd ++ line_log env IrqAlarm ++ line_log env Irq1Hz
         ++ line_log env IrqPeriodic
    /\ rtc_dev pd' = true /\ sysfs_group pd' = true /\ wakeup_init pd' = true.
Proof.
  intros Hzero pd'. subst pd'.
  destruct (mca_rtc_probe_zero env pd Hzero) as (mca & Hmca & Hreach & Hbus & Hreg & Hsys).
  exists mca. split; [exact Hmca |].
  rewrite (mca_rtc_probe_run env pd mca Hmca Hreach), Hbus, Hreg, Hsys.
  change (0 =? 0) with true. cbv iota.
  cbn [snd drvdata irq_actions klog rtc_dev sysfs_group wakeup_init].
  rewrite app_nil_r. repeat split; reflexivity.
Qed.

(** The probe does not look at the alarm-enable bit of the hardware: the
    armed flag of the driver state starts clear whatever the control
    register holds, so a suspend that follows the probe issues no
    transaction and leaves an alarm that the hardware has armed as it
    is, also when the device may not wake the system. *)
Theorem mca_rtc_suspend_after_probe env pd wake :
  fst (mca_rtc_probe env pd) = 0 ->
  let pd' := snd (mca_rtc_probe env pd) in
  exists r,
    drvdata pd' = Some r /\ alarm_enabled r = false
    /\ mca_rtc_suspend (world_of r wake pd') = (0, world_of r wake pd').
Proof.
  intros Hzero pd'. subst pd'.
  destruct (mca_rtc_probe_zero env pd Hzero) as (mca & Hmca & Hreach & Hbus & Hreg & Hsys).
  rewrite (mca_rtc_probe_run env pd mca Hmca Hreach), Hbus, Hreg, Hsys.
  change (0 =? 0) with true. cbv iota. cbn [snd drvdata].
  eexists. split; [reflexivity |]. split; [reflexivity |].
  unfold mca_rtc_suspend, world_of. run_driver.
  destruct wake; reflexivity.
Qed.

(** [mca_rtc_remove] after a successful probe returns 0 and hands the
    alarm line, and nothing else, to [devm_free_irq], and only when the
    member of the line is not negative: after a failed request of the
    alarm line nothing is freed. No register is touched. *)
Theorem mca_rtc_remove_after_probe env pd :
  fst (mca_rtc_probe env pd) = 0 ->
  let pd' := snd (mca_rtc_probe env pd) in
  exists pd'',
    mca_rtc_remove pd' = Some (0, pd'')
    /\ freed_irqs pd''
       = freed_irqs pd
         ++ (if 0 <=? line_member env IrqAlarm then [line_member env IrqAlarm] else [])
    /\ (devm_request_threaded_irq env (platform_get_irq_byname env IrqAlarm) IrqAlarm <> 0 ->
        pd'' = pd')
    /\ mca_regmap pd'' = mca_regmap pd'.
Proof.
  intros Hzero pd'. subst pd'.
  destruct (mca_rtc_probe_zero env pd Hzero) as (mca & Hmca & Hreach & Hbus & Hreg & Hsys).
  rewrite (mca_rtc_probe_run env pd mca Hmca Hreach), Hbus, Hreg, Hsys.
  change (0 =? 0) with true. cbv iota. cbn [snd].
  unfold mca_rtc_remove. cbn [drvdata irq_alarm].
  eexists. split; [reflexivity |].
  destruct (0 <=? line_member env IrqAlarm) eqn:Hsign.
  - repeat split; try reflexivity.
    intros Hfail. exfalso. unfold line_member in Hsign. cbv zeta in Hsign.
    destruct (Z.eqb_spec
                (devm_request_threaded_irq env (platform_get_irq_byname env IrqAlarm)
                   IrqAlarm) 0) as [Heq | _]; [contradiction |].
    discriminate Hsign.
  - cbn [freed_irqs]. rewrite (app_nil_r (freed_irqs pd)). repeat split; reflexivity.
Qed.

End ProbeFacts.

(** ** The further properties on the sample device *)

Lemma mca_tm_to_data_last_write_wins_witness :
  mca_tm_to_data (H := sample_registers) noon_2024_03_01
    (mca_tm_to_data (H := sample_registers) last_second_of_2024
       [0; 0; 240; 224; 224; 192; 192])
  = mca_tm_to_data (H := sample_registers) noon_2024_03_01
      [0; 0; 240; 224; 224; 192; 192].
Proof.
  apply (mca_tm_to_data_last_write_wins (H := sample_registers)).
  reflexivity.
Defined.

Lemma mca_codec_truncates_witness :
  let tm := {| tm_sec := 75; tm_min := 0; tm_hour := 12; tm_mday := 1; tm_mon := 2;
               tm_year := 124; tm_wday := 0; tm_yday := 0; tm_isdst := 0 |} in
  let got :=
    mca_data_to_tm (H := sample_registers)
      (mca_tm_to_data (H := sample_registers) tm [0; 0; 240; 224; 224; 192; 192])
      last_second_of_2024 in
  let year := to_int (tm_year tm + 1900) in
  tm_sec got = Z.land (to_u8 (tm_sec tm)) 63
  /\ tm_min got = Z.land (to_u8 (tm_min tm)) 63
  /\ tm_hour got = Z.land (to_u8 (tm_hour tm)) 31
  /\ tm_mday got = Z.land (to_u8 (tm_mday tm)) 31
  /\ tm_mon got = to_int (Z.land (to_u8 (to_int (tm_mon tm + 1))) 15 - 1)
  /\ tm_year got
     = to_int (Z.lor (Z.shiftl (Z.land (to_u8 (Z.shiftr year 8)) 255) 8)
                     (Z.land (to_u8 year) 255)
               - 1900)
  /\ tm_wday got = tm_wday last_second_of_2024
  /\ tm_yday got = tm_yday last_second_of_2024
  /\ tm_isdst got = tm_isdst last_second_of_2024.
Proof.
  apply (mca_codec_truncates (H := sample_registers)
           {| tm_sec := 75; tm_min := 0; tm_hour := 12; tm_mday := 1; tm_mon := 2;
              tm_year := 124; tm_wday := 0; tm_yday := 0; tm_isdst := 0 |}
           last_second_of_2024 [0; 0; 240; 224; 224; 192; 192]).
  reflexivity.
Defined.

(** The update-interrupt command of <linux/rtc.h> itself, without the
    offset of the shim, is not one of the shim's commands. *)
Lemma mca_rtc_ioctl_unknown_cmd_witness :
  mca_rtc_ioctl (H := sample_registers) RTC_UIE_ON 0 sample_world
  = (IoctlReturn (- ENOIOCTLCMD), sample_world).
Proof.
  apply (mca_rtc_ioctl_unknown_cmd (H := sample_registers) RTC_UIE_ON 0 sample_world).
  vm_compute. intros Hin.
  repeat (destruct Hin as [Hin | Hin]; [discriminate Hin |]). exact Hin.
Defined.

Lemma mca_rtc_ioctl_transport_error_witness :
  let '(r, w') := mca_rtc_ioctl (H := sample_registers) RTC_MCA_PIE_ON 0 faulty_world in
  r = IoctlReturn (- EFAULT)
  /\ regs (bus w') = regs (bus faulty_world)
  /\ umem w' = umem faulty_world
  /\ rtc w' = rtc faulty_world
  /\ length (xlog (bus w')) = S (length (xlog (bus faulty_world)))
  /\ exists fmt, dmesg w' = dmesg faulty_world ++ [DevErr fmt [Z.neg 5]].
Proof.
  apply (mca_rtc_ioctl_transport_error (H := sample_registers)
           RTC_MCA_PIE_ON 0 5%positive faulty_world).
  - cbn. tauto.
  - discriminate.
  - reflexivity.
Defined.

Lemma mca_rtc_ioctl_irqp_set_read_witness :
  let '(r1, w1) := mca_rtc_ioctl (H := sample_registers) RTC_MCA_IRQP_SET 64 sample_world in
  let '(r2, w2) := mca_rtc_ioctl (H := sample_registers) RTC_MCA_IRQP_READ 4096 w1 in
  r1 = IoctlReturn 0 /\ r2 = IoctlReturn 0
  /\ load_bytes 274 2 (regs (bus w1)) = u16_bytes (1024 / 64)
  /\ umem w2 !! 4096 = Some (1024 / (1024 / 64))
  /\ 64 <= 1024 / (1024 / 64)
  /\ (1024 mod 64 = 0 -> umem w2 !! 4096 = Some 64).
Proof.
  apply (mca_rtc_ioctl_irqp_set_read (H := sample_registers) 64 4096 sample_world).
  - lia.
  - reflexivity.
Defined.

Lemma mca_rtc_ioctl_irqp_set_above_1024_witness :
  let '(r1, w1) :=
    mca_rtc_ioctl (H := sample_registers) RTC_MCA_IRQP_SET 2048 sample_world in
  r1 = IoctlReturn 0
  /\ load_bytes 274 2 (regs (bus w1)) = [0; 0]
  /\ fst (mca_rtc_ioctl (H := sample_registers) RTC_MCA_IRQP_READ 4096 w1)
     = IoctlDivideByZero.
Proof.
  apply (mca_rtc_ioctl_irqp_set_above_1024 (H := sample_registers) 2048 4096 sample_world).
  - lia.
  - reflexivity.
Defined.

Lemma mca_rtc_set_alarm_moves_caller_time_witness :
  let alrm := {| enabled := 1; pending := 0; time := noon_2024_03_01 |} in
  let alrm' := snd (fst (mca_rtc_set_alarm (H := sample_registers) alrm faulty_world)) in
  rtc_tm_to_time64 (time alrm') = rtc_tm_to_time64 (time alrm) - 1
  /\ in_hw_range (time alrm')
  /\ enabled alrm' = enabled alrm /\ pending alrm' = pending alrm.
Proof.
  apply (mca_rtc_set_alarm_moves_caller_time (H := sample_registers)
           {| enabled := 1; pending := 0; time := noon_2024_03_01 |} faulty_world).
  - reflexivity.
  - simpl. lia.
  - reflexivity.
Defined.

Lemma mca_rtc_suspend_resume_control_witness :
  let w2 := snd (mca_rtc_resume (H := sample_registers)
                   (snd (mca_rtc_suspend (H := sample_registers) armed_world))) in
  let ctl := reg_val (regs (bus armed_world)) 257 in
  reg_val (regs (bus w2)) 257
  = (if negb (may_wakeup armed_world) && alarm_enabled (rtc armed_world)
     then Z.lor ctl 2 else ctl)
  /\ (Z.land ctl 2 = 2 -> reg_val (regs (bus w2)) 257 = ctl)
  /\ (forall a, a <> 257 -> regs (bus w2) !! a = regs (bus armed_world) !! a)
  /\ rtc w2 = rtc armed_world /\ dmesg w2 = dmesg armed_world.
Proof.
  apply (mca_rtc_suspend_resume_control (H := sample_registers) armed_world).
  reflexivity.
Defined.

Lemma rtc_irq_pin_enable_store_show_witness :
  let '(r1, w1) :=
    rtc_irq_pin_enable_store (H := sample_registers) "enabled" 8 sample_world in
  let '(r2, text, w2) := rtc_irq_pin_enable_show (H := sample_registers) "" w1 in
  r1 = 8
  /\ text = String.append "enabled" newline
  /\ r2 = Z.of_nat (String.length text).
Proof.
  apply (rtc_irq_pin_enable_store_show (H := sample_registers)
           "enabled" 8 "" true sample_world).
  - discriminate.
  - reflexivity.
  - reflexivity.
Defined.

Lemma mca_rtc_probe_state_witness :
  let pd := unbound_device (bus sample_world) in
  let pd' := snd (mca_rtc_probe (H := sample_registers) sample_env pd) in
  exists mca,
    parent_drvdata sample_env = Some mca
    /\ drvdata pd'
       = Some {| irq_alarm := line_member sample_env IrqAlarm;
                 irq_1HZ := line_member sample_env Irq1Hz;
                 irq_periodic := line_member sample_env IrqPeriodic;
                 alarm_enabled := false;
                 prepare_enabled := rtc_prepare_enabled mca |}
    /\ irq_actions pd'
       = irq_actions pd ++ line_action sample_env IrqAlarm ++ line_action sample_env Irq1Hz
         ++ line_action sample_env IrqPeriodic
    /\ klog pd'
       = klog pd ++ line_log sample_env IrqAlarm ++ line_log sample_env Irq1Hz
         ++ line_log sample_env IrqPeriodic
    /\ rtc_dev pd' = true /\ sysfs_group pd' = true /\ wakeup_init pd' = true.
Proof.
  apply (mca_rtc_probe_state (H := sample_registers) sample_env
           (unbound_device (bus sample_world))).
  reflexivity.
Defined.

Lemma mca_rtc_suspend_after_probe_witness :
  let pd := unbound_device (bus armed_world) in
  let pd' := snd (mca_rtc_probe (H := sample_registers) sample_env pd) in
  exists r,
    drvdata pd' = Some r /\ alarm_enabled r = false
    /\ mca_rtc_suspend (H := sample_registers) (world_of r false pd')
       = (0, world_of r false pd').
Proof.
  apply (mca_rtc_suspend_after_probe (H := sample_registers) sample_env
           (unbound_device (bus armed_world)) false).
  reflexivity.
Defined.

Lemma mca_rtc_remove_after_probe_witness :
  let pd := unbound_device (bus sample_world) in
  let pd' := snd (mca_rtc_probe (H := sample_registers) sample_env pd) in
  exists pd'',
    mca_rtc_remove pd' = Some (0, pd'')
    /\ freed_irqs pd''
       = freed_irqs pd
         ++ (if 0 <=? line_member sample_env IrqAlarm
             then [line_member sample_env IrqAlarm] else [])
    /\ (devm_request_threaded_irq sample_env
          (platform_get_irq_byname sample_env IrqAlarm) IrqAlarm <> 0 ->
        pd'' = pd')
    /\ mca_regmap pd'' = mca_regmap pd'.
Proof.
  apply (mca_rtc_remove_after_probe (H := sample_registers) sample_env
           (unbound_device (bus sample_world))).
  reflexivity.
Defined.
